(** * LinkedIn cookie extractor: a shallow embedding of
      [extract_linkedin_cookies.py] and the properties of its pipeline.

    Conventions of the model.
    - A Python [str] is a Rocq [string] holding the UTF-8 encoding of the
      text.  The tests the program makes on text ([startswith('.')],
      ['.' in s], comparison with ASCII literals) give the same answer on
      the encoding as on the code points, because an ASCII byte never
      occurs inside a multi-byte UTF-8 sequence.
    - A Python [bytes] is a [list byte].
    - A cookie store is the file SQLite opens; what a query answers is given
      by the store, not computed from SQL text: the theorems hold for every
      answer a store can give.
    - The cells of a row have the types the two browser schemas declare
      (text name, text-or-blob value, nullable text path, nullable integer
      expiry and flags), except the host cell, the one cell on which the
      program calls a method: a fetched row ([SqlRow]) may hold a NULL, a
      BLOB or a number there, and building its cookie then raises.
    - [print] is an event appended to a log.  A [print] is taken to
      succeed: the encoding of the standard output, on which the [print]
      of a path or of an error text can fail, is not modelled.
    - [connect h cookiefile] is what
      [connect(f"file:{cookiefile}?immutable=1", uri=True)] gives, and
      [Executed cookiefile sql] is a statement sent on that connection.
      Which file SQLite opens for the URI is not modelled (a [?] or a [#]
      in the path cuts the file name short): the statements speak of the
      path a connection was asked for, not of the file behind it.
    - Writing the output file can fail at the [open], at a [bytes] value
      ([json.dump] raises [TypeError]) and at the write itself.
    - Of linkedin_scraper_wrapper.py the part that reads the cookie file is
      embedded: the check for authentication cookies and the conversion of
      the cookies for the browser ([create_session_from_cookies]).  The
      browser session itself is outside of the model. *)

From Stdlib Require Import ZArith List String Ascii Strings.Byte Bool Lia.
From stdpp Require Import gmap strings list sorting.
Import ListNotations.
Local Open Scope string_scope.
Local Open Scope list_scope.

(** ** Python text and bytes *)

Module Py.

(** [s.startswith(p)] *)
Definition startswith (s p : string) : bool := String.prefix p s.

(** [p in s] for strings: [p] occurs in [s] as a contiguous run. *)
Fixpoint contains (s p : string) : bool :=
  String.prefix p s ||
  match s with
  | EmptyString => false
  | String _ t => contains t p
  end.

(** [f".{s}"] *)
Definition dot_prefixed (s : string) : string := String "." s.

(** [s.lower()] on the ASCII letters; the other bytes are kept.  No
    character outside ASCII lowers to a text in which ["firefox"],
    ["mozilla"], ["chrome"] or ["edge"] starts, so the comparisons the
    program makes after [lower()] are decided by the ASCII letters. *)
Definition lower_ascii (c : ascii) : ascii :=
  let n := nat_of_ascii c in
  if (65 <=? n)%nat && (n <=? 90)%nat then ascii_of_nat (n + 32) else c.

Fixpoint lower (s : string) : string :=
  match s with
  | EmptyString => EmptyString
  | String c t => String (lower_ascii c) (lower t)
  end.

(** Truth value of a text: the empty text is falsy. *)
Definition truthy_str (s : string) : bool :=
  match s with EmptyString => false | _ => true end.

(** Truth value of an integer: zero is falsy. *)
Definition truthy_int (z : Z) : bool := negb (z =? 0)%Z.

(** [bytes.decode('utf-8')] in strict mode.  The well-formed sequences are
    those of the Unicode standard: no overlong form, no surrogate, nothing
    above U+10FFFF, no truncated sequence. *)
Definition between (lo hi : N) (b : byte) : bool :=
  let n := Byte.to_N b in (lo <=? n)%N && (n <=? hi)%N.

Definition cont (b : byte) : bool := between 128 191 b.

Fixpoint utf8_valid (bs : list byte) : bool :=
  match bs with
  | [] => true
  | b0 :: r0 =>
    if between 0 127 b0 then utf8_valid r0
    else match r0 with
    | [] => false
    | b1 :: r1 =>
      if between 194 223 b0 then cont b1 && utf8_valid r1
      else match r1 with
      | [] => false
      | b2 :: r2 =>
        if between 224 224 b0 then between 160 191 b1 && cont b2 && utf8_valid r2
        else if between 225 236 b0 then cont b1 && cont b2 && utf8_valid r2
        else if between 237 237 b0 then between 128 159 b1 && cont b2 && utf8_valid r2
        else if between 238 239 b0 then cont b1 && cont b2 && utf8_valid r2
        else match r2 with
        | [] => false
        | b3 :: r3 =>
          if between 240 240 b0 then
            between 144 191 b1 && cont b2 && cont b3 && utf8_valid r3
          else if between 241 243 b0 then
            cont b1 && cont b2 && cont b3 && utf8_valid r3
          else if between 244 244 b0 then
            between 128 143 b1 && cont b2 && cont b3 && utf8_valid r3
          else false
        end
      end
    end
  end.

(** [Some text] when the bytes decode, [None] for [UnicodeDecodeError]. *)
Definition decode_utf8 (bs : list byte) : option string :=
  if utf8_valid bs then Some (string_of_list_byte bs) else None.

End Py.

(** ** Rows and canonical cookies *)

(** A cell that SQLite hands back as [str] or as [bytes]. *)
Inductive CellValue : Type :=
| VText (s : string)
| VBytes (bs : list byte).

(** One fetched row:
    [name, value, host, path, expiry, isSecure, isHttpOnly] for the Firefox
    schema and
    [name, value, host_key, path, expires_utc, is_secure, is_httponly] for
    the Chrome/Edge schema.  [None] is SQL NULL. *)
Record RawCookieRow : Type := mkRow {
  row_name : string;
  row_value : CellValue;
  row_host : string;
  row_path : option string;
  row_expiry : option Z;
  row_secure : option Z;
  row_httponly : option Z;
}.

(** The dictionary built for each cookie. *)
Record Cookie : Type := mkCookie {
  name : string;
  value : CellValue;
  domain : string;
  path : string;
  expiry : option Z;
  secure : bool;
  httpOnly : bool;
}.

(** ** Normalisation of one row *)

(** Line 229:
    [row[2] if row[2].startswith('.') else f".{row[2]}"
       if not row[2].startswith('.') and '.' in row[2] else row[2]] *)
Definition firefox_domain (host : string) : string :=
  if Py.startswith host "." then host
  else if negb (Py.startswith host ".") && Py.contains host "."
       then Py.dot_prefixed host
       else host.

(** Line 271:
    [host_key if host_key.startswith('.') else f".{host_key}"
       if '.' in host_key else host_key] *)
Definition chrome_domain (host_key : string) : string :=
  if Py.startswith host_key "." then host_key
  else if Py.contains host_key "." then Py.dot_prefixed host_key
  else host_key.

(** [row[3] or '/'] *)
Definition path_or_root (p : option string) : string :=
  match p with
  | Some s => if Py.truthy_str s then s else "/"
  | None => "/"
  end.

(** [row[4] if row[4] else None] *)
Definition expiry_or_none (e : option Z) : option Z :=
  match e with
  | Some z => if Py.truthy_int z then Some z else None
  | None => None
  end.

(** [bool(x) if x is not None else d] *)
Definition flag_or (d : bool) (f : option Z) : bool :=
  match f with
  | Some z => Py.truthy_int z
  | None => d
  end.

(** Lines 226-234: the Firefox dictionary; the value is stored as fetched. *)
Definition firefox_cookie (row : RawCookieRow) : Cookie :=
  {| name := row_name row;
     value := row_value row;
     domain := firefox_domain (row_host row);
     path := path_or_root (row_path row);
     expiry := expiry_or_none (row_expiry row);
     secure := flag_or true (row_secure row);
     httpOnly := flag_or false (row_httponly row) |}.

(** Lines 269-290: the Chrome/Edge dictionary.  A [bytes] value is decoded;
    [None] stands for the [continue] taken on [UnicodeDecodeError]. *)
Definition chrome_value (v : CellValue) : option CellValue :=
  match v with
  | VText s => Some (VText s)
  | VBytes bs =>
    match Py.decode_utf8 bs with
    | Some s => Some (VText s)
    | None => None
    end
  end.

Definition chrome_cookie (row : RawCookieRow) : option Cookie :=
  let domain := chrome_domain (row_host row) in
  match chrome_value (row_value row) with
  | None => None
  | Some cookie_value =>
    Some {| name := row_name row;
            value := cookie_value;
            domain := domain;
            path := path_or_root (row_path row);
            expiry := expiry_or_none (row_expiry row);
            secure := flag_or true (row_secure row);
            httpOnly := flag_or false (row_httponly row) |}
  end.

(** The inner [for row in rows] loop of the Chrome/Edge extractor. *)
Fixpoint chrome_rows (rows : list RawCookieRow) : list Cookie :=
  match rows with
  | [] => []
  | row :: rest =>
    match chrome_cookie row with
    | Some cookie => cookie :: chrome_rows rest
    | None => chrome_rows rest
    end
  end.

(** The inner [for row in rows] loop of the Firefox extractor. *)
Definition firefox_rows (rows : list RawCookieRow) : list Cookie :=
  map firefox_cookie rows.

(** ** Rows as SQLite hands them back *)

(** The host cell [row[2]]: SQLite types values, not columns, so the cell
    may hold something else than text. *)
Inductive HostCell : Type :=
| HostText (host : string)
| HostNull
| HostBlob (bs : list byte)
| HostInt (z : Z)
| HostReal (mantissa exponent : Z).

Record SqlRow : Type := mkSqlRow {
  sql_name : string;
  sql_value : CellValue;
  sql_host : HostCell;
  sql_path : option string;
  sql_expiry : option Z;
  sql_secure : option Z;
  sql_httponly : option Z;
}.

(** The row with a text host, when the host is text. *)
Definition typed_row (r : SqlRow) : option RawCookieRow :=
  match sql_host r with
  | HostText host =>
    Some {| row_name := sql_name r;
            row_value := sql_value r;
            row_host := host;
            row_path := sql_path r;
            row_expiry := sql_expiry r;
            row_secure := sql_secure r;
            row_httponly := sql_httponly r |}
  | _ => None
  end.

Definition sql_row (row : RawCookieRow) : SqlRow :=
  {| sql_name := row_name row;
     sql_value := row_value row;
     sql_host := HostText (row_host row);
     sql_path := row_path row;
     sql_expiry := row_expiry row;
     sql_secure := row_secure row;
     sql_httponly := row_httponly row |}.

(** ** Effects: what a call prints, sends to a store or writes, and
       whether it returns or raises *)

(** The exceptions the program tells apart: [sqlite3.OperationalError] has
    a handler of its own, everything else is caught as [Exception]. *)
Inductive PyExc : Type :=
| OperationalError
| OtherException.

Inductive Exc (A : Type) : Type :=
| Ok (a : A)
| Raised (e : PyExc).
Arguments Ok {A} a.
Arguments Raised {A} e.

(** The [print] calls of the program, one constructor per statement. *)
Inductive Message : Type :=
| MsgExtracting                       (* line 320 *)
| MsgAutoDetect                       (* line 338 *)
| MsgNoCookieFiles                    (* line 360 *)
| MsgPleaseLogIn                      (* lines 361 and 387 *)
| MsgCheckingFiles (n : nat) (browser_name : string)  (* line 365 *)
| MsgCheckingFile (cookiefile : string)               (* line 371 *)
| MsgFound (n : nat)                  (* line 382 *)
| MsgNoLinkedInCookies                (* line 386 *)
| MsgNoAuthCookies                    (* line 405 *)
| MsgMayNotSuffice                    (* line 406 *)
| MsgExtracted (n : nat)              (* line 414 *)
| MsgSaved (output_file : string)     (* line 415 *)
| MsgAuthFound                        (* line 417 *)
| MsgErrorSaving                      (* line 422 *)
| WarnFirefox (cookiefile : string)   (* line 245 *)
| WarnChrome (cookiefile : string).   (* line 303 *)

(** What a run does to the outside, in the order it does it. *)
Inductive Event : Type :=
| Printed (m : Message)
| Executed (cookiefile : string) (sql : string)
| OpenedForWriting (output_file : string)
| Dumped (output_file : string) (cookies : list Cookie).

Definition Eff (A : Type) : Type := (list Event * Exc A)%type.

Definition ret {A} (a : A) : Eff A := ([], Ok a).

Definition bind {A B} (m : Eff A) (k : A -> Eff B) : Eff B :=
  match m with
  | (t, Ok a) => let (t', r) := k a in (t ++ t', r)
  | (t, Raised e) => (t, Raised e)
  end.

Definition raise {A} (e : PyExc) : Eff A := ([], Raised e).

Definition emit (ev : Event) : Eff unit := ([ev], Ok tt).

Definition print (m : Message) : Eff unit := emit (Printed m).

(** [try: m except ...: h] *)
Definition try_except {A} (m : Eff A) (h : PyExc -> Eff A) : Eff A :=
  match m with
  | (t, Ok a) => (t, Ok a)
  | (t, Raised e) => let (t', r) := h e in (t ++ t', r)
  end.

(** Lifting an outcome of the outside world. *)
Definition lift {A} (x : Exc A) : Eff A := ([], x).

Definition when (b : bool) (m : Eff unit) : Eff unit :=
  if b then m else ret tt.

Notation "x <- m ;; k" := (bind m (fun x => k))
  (at level 100, m at next level, right associativity).
Notation "m ;;; k" := (bind m (fun _ => k))
  (at level 100, right associativity).

Definition trace {A} (m : Eff A) : list Event := fst m.
Definition outcome {A} (m : Eff A) : Exc A := snd m.

(** ** Building the cookies of fetched rows *)

(** Building the dictionary of one fetched row.  [row[2].startswith('.')]
    (line 229) and [host_key.startswith('.')] (line 271) raise on a host
    that is not text: [AttributeError] on [None], on an [int] and on a
    [float], [TypeError] on [bytes].  In the Chrome/Edge extractor the host is
    looked at before the value is decoded. *)
Definition firefox_build (r : SqlRow) : Exc Cookie :=
  match typed_row r with
  | Some row => Ok (firefox_cookie row)
  | None => Raised OtherException
  end.

Definition chrome_build (r : SqlRow) : Exc (option Cookie) :=
  match typed_row r with
  | Some row => Ok (chrome_cookie row)
  | None => Raised OtherException
  end.

(** [cookies = []; for row in rows: ...; cookies.append(cookie)]: an
    exception at any row leaves the loop and the list is lost. *)
Fixpoint firefox_build_rows (rows : list SqlRow) : Exc (list Cookie) :=
  match rows with
  | [] => Ok []
  | row :: rest =>
    match firefox_build row with
    | Raised e => Raised e
    | Ok cookie =>
      match firefox_build_rows rest with
      | Raised e => Raised e
      | Ok cookies => Ok (cookie :: cookies)
      end
    end
  end.

Fixpoint chrome_build_rows (rows : list SqlRow) : Exc (list Cookie) :=
  match rows with
  | [] => Ok []
  | row :: rest =>
    match chrome_build row with
    | Raised e => Raised e
    | Ok built =>
      match chrome_build_rows rest with
      | Raised e => Raised e
      | Ok cookies =>
        Ok (match built with
            | Some cookie => cookie :: cookies
            | None => cookies
            end)
      end
    end
  end.

(** ** The host: file system and cookie stores *)

(** An open connection: what the store answers to a statement followed by
    [fetchall()] (the SELECT of rows) or [fetchone()] (the COUNT probes).
    [fetchone()] gives [None] or the one-column row [(n,)]. *)
Record Database : Type := mkDatabase {
  fetchall : string -> Exc (list SqlRow);
  fetchone : string -> Exc (option Z);
}.

Record Host : Type := mkHost {
  system : string;                       (* platform.system() *)
  expanduser : string -> string;
  exists_ : string -> bool;              (* os.path.exists *)
  glob : string -> list string;
  connect : string -> Exc Database;      (* connect("file:..?immutable=1") *)
  open_w : string -> Exc unit;           (* open(output_file, 'w') *)
  write_w : string -> Exc unit;          (* writing the text, closing the file *)
}.

Section WithHost.

Variable h : Host.

Definition execute_fetchall (cookiefile : string) (conn : Database)
    (sql : string) : Eff (list SqlRow) :=
  emit (Executed cookiefile sql) ;;; lift (fetchall conn sql).

Definition execute_fetchone (cookiefile : string) (conn : Database)
    (sql : string) : Eff (option Z) :=
  emit (Executed cookiefile sql) ;;; lift (fetchone conn sql).

(** ** Store prober (lines 28-59) *)

Definition probe_baseDomain : string :=
  "SELECT COUNT(*) FROM moz_cookies WHERE (baseDomain='linkedin.com' OR baseDomain='.linkedin.com')".
Definition probe_host : string :=
  "SELECT COUNT(*) FROM moz_cookies WHERE host LIKE '%linkedin.com'".
Definition probe_host_key : string :=
  "SELECT COUNT(*) FROM cookies WHERE host_key LIKE '%linkedin.com'".

(** [result and result[0] > 0] *)
Definition counted (result : option Z) : bool :=
  match result with
  | Some n => (0 <? n)%Z
  | None => false
  end.

(** The body of the outer [try].  Where the source returns [True] the body
    gives [true]; where it runs on to [conn.close()] and [return False] it
    gives [false]. *)
Definition probe_body (cookiefile : string) (is_firefox : bool) : Eff bool :=
  if is_firefox then
    conn <- lift (connect h cookiefile) ;;
    try_except
      (result <- execute_fetchone cookiefile conn probe_baseDomain ;;
       ret (counted result))
      (fun e =>
         match e with
         | OperationalError =>
           result <- execute_fetchone cookiefile conn probe_host ;;
           ret (counted result)
         | OtherException => raise e
         end)
  else
    conn <- lift (connect h cookiefile) ;;
    result <- execute_fetchone cookiefile conn probe_host_key ;;
    ret (counted result).

Definition has_linkedin_cookies (cookiefile : string) (is_firefox : bool)
    : Eff bool :=
  try_except (probe_body cookiefile is_firefox) (fun _ => ret false).

(** ** Ranking (lines 92-102, 141-151, 190-200) *)

(** The loop that fills [prioritized] and [others]. *)
Fixpoint rank_loop (is_firefox : bool) (cookie_files : list string)
    (prioritized others : list string) : Eff (list string * list string) :=
  match cookie_files with
  | [] => ret (prioritized, others)
  | cookiefile :: rest =>
    found <- has_linkedin_cookies cookiefile is_firefox ;;
    if found
    then rank_loop is_firefox rest (prioritized ++ [cookiefile]) others
    else rank_loop is_firefox rest prioritized (others ++ [cookiefile])
  end.

Definition rank (is_firefox : bool) (cookie_files : list string)
    : Eff (list string) :=
  po <- rank_loop is_firefox cookie_files [] [] ;;
  ret (fst po ++ snd po).

(** ** Profile locator *)

Definition firefox_patterns : list string :=
  if String.eqb (system h) "Windows" then
    [ "~/AppData/Roaming/Mozilla/Firefox/Profiles/*/cookies.sqlite";
      "~/AppData/Roaming/Mozilla/Firefox Developer Edition/Profiles/*/cookies.sqlite" ]
  else if String.eqb (system h) "Darwin" then
    [ "~/Library/Application Support/Firefox/Profiles/*/cookies.sqlite";
      "~/Library/Application Support/Firefox Developer Edition/Profiles/*/cookies.sqlite" ]
  else
    [ "~/.mozilla/firefox/*/cookies.sqlite";
      "~/.mozilla/firefox-developer-edition/*/cookies.sqlite" ].

Definition chrome_base_paths : list string :=
  if String.eqb (system h) "Windows" then [ "~/AppData/Local/Google/Chrome/User Data" ]
  else if String.eqb (system h) "Darwin" then [ "~/Library/Application Support/Google/Chrome" ]
  else [ "~/.config/google-chrome" ].

Definition edge_base_paths : list string :=
  if String.eqb (system h) "Windows" then [ "~/AppData/Local/Microsoft/Edge/User Data" ]
  else if String.eqb (system h) "Darwin" then [ "~/Library/Application Support/Microsoft Edge" ]
  else [ "~/.config/microsoft-edge" ].

(** Lines 84-87. *)
Definition firefox_candidates : list string :=
  flat_map (fun pattern => glob h (expanduser h pattern)) firefox_patterns.

(** Lines 122-139 and 171-188: the body of [for base_path in base_paths]. *)
Definition profile_candidates (base_path : string) : list string :=
  if negb (exists_ h (expanduser h base_path)) then []
  else
    let default_cookies := expanduser h (String.append base_path "/Default/Cookies") in
    (if exists_ h default_cookies then [default_cookies] else [])
    ++ glob h (expanduser h (String.append base_path "/Profile */Cookies"))
    ++ glob h (expanduser h (String.append base_path "/Profile [0-9]*/Cookies")).

Definition chromium_candidates (base_paths : list string) : list string :=
  flat_map profile_candidates base_paths.

Definition get_firefox_cookie_files : Eff (list string) :=
  let all_cookiefiles := firefox_candidates in
  match all_cookiefiles with
  | [] => ret []
  | _ => rank true all_cookiefiles
  end.

Definition get_chrome_cookie_files : Eff (list string) :=
  rank false (chromium_candidates chrome_base_paths).

Definition get_edge_cookie_files : Eff (list string) :=
  rank false (chromium_candidates edge_base_paths).

(** ** Schema-adaptive extractors (lines 203-304) *)

Definition firefox_queries : list string :=
  [ "SELECT name, value, host, path, expiry, isSecure, isHttpOnly FROM moz_cookies WHERE (baseDomain='linkedin.com' OR baseDomain='.linkedin.com')";
    "SELECT name, value, host, path, expiry, isSecure, isHttpOnly FROM moz_cookies WHERE (host='linkedin.com' OR host='.linkedin.com' OR host='www.linkedin.com' OR host LIKE '%.linkedin.com')";
    "SELECT name, value, host, path, expiry, isSecure, isHttpOnly FROM moz_cookies WHERE host LIKE '%linkedin.com'" ].

Definition chrome_queries : list string :=
  [ "SELECT name, value, host_key, path, expires_utc, is_secure, is_httponly FROM cookies WHERE host_key LIKE '%linkedin.com'";
    "SELECT name, value, host_key, path, expires_utc, is_secure, is_httponly FROM cookies WHERE host_key LIKE '%.linkedin.com'";
    "SELECT name, value, host_key, path, expires_utc, is_secure, is_httponly FROM cookies WHERE host_key='www.linkedin.com'" ].

(** [for query in queries] of the Firefox extractor.  Inside the [try] of
    a query are the statement, [if rows:] and the building of the cookies;
    [Some cookies] is the [return cookies] in there, [None] the way to the
    next query.  An [OperationalError] goes to the next query; any other
    exception, of the statement or of the building, leaves the loop. *)
Fixpoint firefox_loop (cookiefile : string) (conn : Database)
    (queries : list string) : Eff (option (list Cookie)) :=
  match queries with
  | [] => ret None
  | query :: rest =>
    attempt <-
      try_except
        (rows <- execute_fetchall cookiefile conn query ;;
         match rows with
         | [] => ret None
         | _ :: _ =>
           cookies <- lift (firefox_build_rows rows) ;; ret (Some cookies)
         end)
        (fun e =>
           match e with
           | OperationalError => ret None
           | OtherException => raise e
           end) ;;
    match attempt with
    | Some cookies => ret (Some cookies)
    | None => firefox_loop cookiefile conn rest
    end
  end.

Definition extract_cookies_from_firefox (cookiefile : string)
    : Eff (option (list Cookie)) :=
  try_except
    (conn <- lift (connect h cookiefile) ;;
     firefox_loop cookiefile conn firefox_queries)
    (fun _ => print (WarnFirefox cookiefile) ;;; ret None).

(** [for query in queries] of the Chrome/Edge extractor: both handlers
    [continue], whether the statement raised or the building did. *)
Fixpoint chrome_loop (cookiefile : string) (conn : Database)
    (queries : list string) : Eff (option (list Cookie)) :=
  match queries with
  | [] => ret None
  | query :: rest =>
    attempt <-
      try_except
        (rows <- execute_fetchall cookiefile conn query ;;
         match rows with
         | [] => ret None
         | _ :: _ =>
           cookies <- lift (chrome_build_rows rows) ;; ret (Some cookies)
         end)
        (fun _ => ret None) ;;
    match attempt with
    | Some cookies => ret (Some cookies)
    | None => chrome_loop cookiefile conn rest
    end
  end.

Definition extract_cookies_from_chrome_edge (cookiefile : string)
    : Eff (option (list Cookie)) :=
  try_except
    (conn <- lift (connect h cookiefile) ;;
     chrome_loop cookiefile conn chrome_queries)
    (fun _ => print (WarnChrome cookiefile) ;;; ret None).

(** ** Aggregator and persister (lines 307-423) *)

(** [browser and browser.lower() == wanted] *)
Definition browser_is (browser : option string) (wanted : string) : bool :=
  match browser with
  | Some b => Py.truthy_str b && String.eqb (Py.lower b) wanted
  | None => false
  end.

(** Lines 322-356: the files to read and the browser's display name. *)
Definition select_cookie_files (browser : option string) (quiet : bool)
    : Eff (list string * string) :=
  if browser_is browser "firefox" then
    (cookie_files <- get_firefox_cookie_files ;; ret (cookie_files, "Firefox"))
  else if browser_is browser "chrome" then
    (cookie_files <- get_chrome_cookie_files ;; ret (cookie_files, "Chrome"))
  else if browser_is browser "edge" then
    (cookie_files <- get_edge_cookie_files ;; ret (cookie_files, "Edge"))
  else
    (when (negb quiet) (print MsgAutoDetect) ;;;
     firefox_files <- get_firefox_cookie_files ;;
     match firefox_files with
     | _ :: _ => ret (firefox_files, "Firefox")
     | [] =>
       chrome_files <- get_chrome_cookie_files ;;
       match chrome_files with
       | _ :: _ => ret (chrome_files, "Chrome")
       | [] =>
         edge_files <- get_edge_cookie_files ;;
         match edge_files with
         | _ :: _ => ret (edge_files, "Edge")
         | [] => ret ([], EmptyString)
         end
       end
     end).

(** Line 374. *)
Definition looks_like_firefox (cookiefile : string) : bool :=
  Py.contains (Py.lower cookiefile) "firefox"
  || Py.contains (Py.lower cookiefile) "mozilla".

(** Lines 368-382: [all_cookies] grows store after store. *)
Fixpoint scan (quiet : bool) (cookie_files : list string)
    (all_cookies : list Cookie) : Eff (list Cookie) :=
  match cookie_files with
  | [] => ret all_cookies
  | cookiefile :: rest =>
    when (negb quiet) (print (MsgCheckingFile cookiefile)) ;;;
    cookies <-
      (if looks_like_firefox cookiefile
       then extract_cookies_from_firefox cookiefile
       else extract_cookies_from_chrome_edge cookiefile) ;;
    match cookies with
    | Some (c :: cs) =>
      when (negb quiet) (print (MsgFound (length (c :: cs)))) ;;;
      scan quiet rest (all_cookies ++ c :: cs)
    | _ => scan quiet rest all_cookies
    end
  end.

(** Lines 390-397: the [seen] set is a [gset] of [(name, domain)] keys. *)
Definition key (cookie : Cookie) : string * string :=
  (name cookie, domain cookie).

Fixpoint dedup_loop (all_cookies : list Cookie) (seen : gset (string * string))
    (unique_cookies : list Cookie) : list Cookie :=
  match all_cookies with
  | [] => unique_cookies
  | cookie :: rest =>
    if decide (key cookie ∈ seen)
    then dedup_loop rest seen unique_cookies
    else dedup_loop rest ({[key cookie]} ∪ seen) (unique_cookies ++ [cookie])
  end.

Definition remove_duplicates (all_cookies : list Cookie) : list Cookie :=
  dedup_loop all_cookies ∅ [].

(** Lines 400-401. *)
Definition auth_cookie_names : list string :=
  [ "li_at"; "JSESSIONID"; "bcookie"; "bscookie" ].

Definition found_auth_cookies (unique_cookies : list Cookie) : bool :=
  existsb (fun c => existsb (String.eqb (name c)) auth_cookie_names)
          unique_cookies.

(** [json.dump] raises [TypeError] on a [bytes] value; text, integers,
    booleans and [None] are written. *)
Definition json_serializable (cookies : list Cookie) : bool :=
  forallb (fun c => match value c with VText _ => true | VBytes _ => false end)
          cookies.

(** Lines 410-411.  [OpenedForWriting] is the [open], which empties the
    file.  [json.dump] raises at the first [bytes] value, and a write or
    the closing of the file can fail: either way the file is left with
    what was written until then.  [Dumped] is a dump that went through. *)
Definition save (output_file : string) (unique_cookies : list Cookie)
    : Eff unit :=
  lift (open_w h output_file) ;;;
  emit (OpenedForWriting output_file) ;;;
  if json_serializable unique_cookies
  then (lift (write_w h output_file) ;;;
        emit (Dumped output_file unique_cookies))
  else raise OtherException.

(** Lines 384-423: what follows the scan of the stores. *)
Definition finalize (all_cookies : list Cookie) (output_file : string)
    (quiet : bool) : Eff (option string) :=
  match all_cookies with
  | [] =>
    when (negb quiet) (print MsgNoLinkedInCookies ;;; print MsgPleaseLogIn) ;;;
    ret None
  | _ :: _ =>
    let unique_cookies := remove_duplicates all_cookies in
    let found := found_auth_cookies unique_cookies in
    when (negb found && negb quiet)
         (print MsgNoAuthCookies ;;; print MsgMayNotSuffice) ;;;
    try_except
      (save output_file unique_cookies ;;;
       when (negb quiet)
            (print (MsgExtracted (length unique_cookies)) ;;;
             print (MsgSaved output_file) ;;;
             when found (print MsgAuthFound)) ;;;
       ret (Some output_file))
      (fun _ => when (negb quiet) (print MsgErrorSaving) ;;; ret None)
  end.

Definition extract_linkedin_cookies (browser : option string)
    (output_file : string) (quiet : bool) : Eff (option string) :=
  when (negb quiet) (print MsgExtracting) ;;;
  selected <- select_cookie_files browser quiet ;;
  let cookie_files := fst selected in
  let browser_name := snd selected in
  match cookie_files with
  | [] =>
    when (negb quiet) (print MsgNoCookieFiles ;;; print MsgPleaseLogIn) ;;;
    ret None
  | _ :: _ =>
    when (negb quiet)
         (print (MsgCheckingFiles (length cookie_files) browser_name)) ;;;
    all_cookies <- scan quiet cookie_files [] ;;
    finalize all_cookies output_file quiet
  end.

End WithHost.

(** ** Command line entry (lines 426-446) *)

(** [main] after [parse_args()]: the parsed arguments are the parameters,
    and the status given to [sys.exit] is the result. *)
Definition main (h : Host) (browser : option string) (output : string)
    (quiet : bool) : Eff Z :=
  result <- extract_linkedin_cookies h browser output quiet ;;
  match result with
  | Some (String _ _) => ret 0%Z
  | _ => ret 1%Z
  end.

(** ** The consumer of the cookie file
       ([create_session_from_cookies], linkedin_scraper_wrapper.py) *)

(** What [json.load] gives back.  Numbers with a fraction are left out. *)
#[local] Set Warnings "-register-all".
Inductive Json : Type :=
| JNull
| JBool (b : bool)
| JInt (z : Z)
| JStr (s : string)
| JArr (items : list Json)
| JObj (members : gmap string Json).
#[local] Set Warnings "register-all".

Inductive DictError : Type :=
| KeyError (k : string)      (* [d[k]] on a dict without [k] *)
| TypeError                  (* [x[k]] on something that is not a dict *)
| AttributeError.            (* [x.get] on something that is not a dict *)

Module Wrapper.

Definition truthy (v : Json) : bool :=
  match v with
  | JNull => false
  | JBool b => b
  | JInt z => Py.truthy_int z
  | JStr s => Py.truthy_str s
  | JArr items => match items with [] => false | _ => true end
  | JObj members => negb (Nat.eqb (size members) 0)
  end.

(** [cookie[k]] *)
Definition getitem (cookie : Json) (k : string) : DictError + Json :=
  match cookie with
  | JObj members =>
    match members !! k with
    | Some v => inr v
    | None => inl (KeyError k)
    end
  | _ => inl TypeError
  end.

(** [cookie.get(k)]: [None] stands for Python's [None]. *)
Definition get (cookie : Json) (k : string) : DictError + option Json :=
  match cookie with
  | JObj members => inr (members !! k)
  | _ => inl AttributeError
  end.

(** [cookie.get(k, default)] *)
Definition get_default (cookie : Json) (k : string) (d : Json)
    : DictError + Json :=
  match cookie with
  | JObj members =>
    inr (match members !! k with Some v => v | None => d end)
  | _ => inl AttributeError
  end.

(** Truth value of [cookie.get(k)]. *)
Definition get_truthy (cookie : Json) (k : string) : DictError + bool :=
  match get cookie k with
  | inr (Some v) => inr (truthy v)
  | inr None => inr false
  | inl e => inl e
  end.

(** Line 60. *)
Definition auth_cookie_names : list string :=
  [ "li_at"; "JSESSIONID"; "bcookie"; "bscookie" ].

(** [c.get('name') in auth_cookie_names] *)
Definition name_is_auth (c : Json) : DictError + bool :=
  match get c "name" with
  | inr (Some (JStr s)) => inr (existsb (String.eqb s) auth_cookie_names)
  | inr _ => inr false
  | inl e => inl e
  end.

(** Line 61: [any(...)] stops at the first cookie that answers true. *)
Fixpoint found_auth (cookies : list Json) : DictError + bool :=
  match cookies with
  | [] => inr false
  | c :: rest =>
    match name_is_auth c with
    | inr true => inr true
    | inr false => found_auth rest
    | inl e => inl e
    end
  end.

(** Lines 74-85: the dictionary handed to the browser. *)
Definition pw_cookie (cookie : Json) : DictError + gmap string Json :=
  match getitem cookie "name" with
  | inl e => inl e
  | inr name =>
  match getitem cookie "value" with
  | inl e => inl e
  | inr value =>
  match get_default cookie "domain" (JStr ".linkedin.com") with
  | inl e => inl e
  | inr domain =>
  match get_default cookie "path" (JStr "/") with
  | inl e => inl e
  | inr path =>
    let d0 : gmap string Json :=
      <["path" := path]> (<["domain" := domain]>
        (<["value" := value]> (<["name" := name]> ∅))) in
    match get_truthy cookie "expiry" with
    | inl e => inl e
    | inr has_expiry =>
      match (if has_expiry
             then match getitem cookie "expiry" with
                  | inr v => inr (<["expires" := v]> d0)
                  | inl e => inl e
                  end
             else inr d0) with
      | inl e => inl e
      | inr d1 =>
        match get_truthy cookie "secure" with
        | inl e => inl e
        | inr has_secure =>
          match (if has_secure
                 then match getitem cookie "secure" with
                      | inr v => inr (<["secure" := v]> d1)
                      | inl e => inl e
                      end
                 else inr d1) with
          | inl e => inl e
          | inr d2 =>
            match get_truthy cookie "httpOnly" with
            | inl e => inl e
            | inr has_http =>
              if has_http
              then match getitem cookie "httpOnly" with
                   | inr v => inr (<["httpOnly" := v]> d2)
                   | inl e => inl e
                   end
              else inr d2
            end
          end
        end
      end
    end
  end end end end.

(** Lines 72-86: the loop; the first cookie that raises ends it. *)
Fixpoint playwright_cookies (cookies : list Json)
    : DictError + list (gmap string Json) :=
  match cookies with
  | [] => inr []
  | cookie :: rest =>
    match pw_cookie cookie with
    | inl e => inl e
    | inr d =>
      match playwright_cookies rest with
      | inl e => inl e
      | inr ds => inr (d :: ds)
      end
    end
  end.

End Wrapper.

(** The dictionary of lines 226-234 and 282-290 as [json.load] returns it
    from the file [json.dump] wrote; a [bytes] value has no JSON form. *)
Definition json_of_expiry (e : option Z) : Json :=
  match e with Some z => JInt z | None => JNull end.

Definition json_of_cookie (c : Cookie) : option Json :=
  match value c with
  | VText v =>
    Some (JObj (<["httpOnly" := JBool (httpOnly c)]>
               (<["secure" := JBool (secure c)]>
               (<["expiry" := json_of_expiry (expiry c)]>
               (<["path" := JStr (path c)]>
               (<["domain" := JStr (domain c)]>
               (<["value" := JStr v]>
               (<["name" := JStr (name c)]> ∅))))))))
  | VBytes _ => None
  end.

(** * Statements *)

(** ** What the normaliser promises *)

Definition starts_with_dot (s : string) : Prop := exists t, s = String "." t.

Definition has_dot (s : string) : Prop := In "."%char (list_ascii_of_string s).

(** [c] is a canonical form of [row]: the domain rule, the default path and
    the two flags with their defaults. *)
Definition normalized (row : RawCookieRow) (c : Cookie) : Prop :=
  (starts_with_dot (row_host row) -> domain c = row_host row)
  /\ (~ starts_with_dot (row_host row) -> has_dot (row_host row) ->
      domain c = String "." (row_host row))
  /\ (~ has_dot (row_host row) -> domain c = row_host row)
  /\ (row_path row = None \/ row_path row = Some EmptyString -> path c = "/")
  /\ (forall z, row_secure row = Some z -> secure c = negb (z =? 0)%Z)
  /\ (row_secure row = Some 0%Z -> secure c = false)
  /\ (row_secure row = None -> secure c = true)
  /\ (forall z, row_httponly row = Some z -> httpOnly c = negb (z =? 0)%Z)
  /\ (row_httponly row = None -> httpOnly c = false).

(** [c] is what either family makes of [row]. *)
Definition cookie_of (row : RawCookieRow) (c : Cookie) : Prop :=
  c = firefox_cookie row \/ chrome_cookie row = Some c.

(** The expiry of [c] is null for a falsy stored expiry and the stored
    value otherwise. *)
Definition expiry_rule (row : RawCookieRow) (c : Cookie) : Prop :=
  (row_expiry row = None \/ row_expiry row = Some 0%Z -> expiry c = None)
  /\ (forall z, row_expiry row = Some z -> z <> 0%Z -> expiry c = Some z).

(** ** What the aggregator promises *)

(** Two cookies with the same name and the same domain. *)
Definition same_key (c c' : Cookie) : Prop :=
  name c = name c' /\ domain c = domain c'.

(** [c] sits at index [i] of [l] and no earlier cookie of [l] has its name
    and its domain. *)
Definition first_occurrence (l : list Cookie) (i : nat) (c : Cookie) : Prop :=
  l !! i = Some c
  /\ forall (j : nat) (c' : Cookie),
      j < i -> l !! j = Some c' -> ~ same_key c' c.

(** The same with the key the code computes. *)
Definition first_with_key (l : list Cookie) (i : nat) (c : Cookie) : Prop :=
  l !! i = Some c
  /\ forall (j : nat) (c' : Cookie), j < i -> l !! j = Some c' -> key c' <> key c.

(** [kept] is made of the cookies of [l] at the indices [idx]. *)
Definition taken_at (l : list Cookie) (idx : list nat) (kept : list Cookie)
    : Prop :=
  Forall2 (fun i c => l !! i = Some c) idx kept.

(** ** Reading a trace *)

Definition prints (t : list Event) : list Message :=
  omap (fun ev => match ev with Printed m => Some m | _ => None end) t.

Definition executed (t : list Event) : list string :=
  omap (fun ev => match ev with Executed _ sql => Some sql | _ => None end) t.

Definition touches_file (ev : Event) : bool :=
  match ev with
  | OpenedForWriting _ | Dumped _ _ => true
  | _ => false
  end.

(** ** What the ranking promises *)

(** The answer of the probe as a value. *)
Definition confirmed (h : Host) (is_firefox : bool) (cookiefile : string)
    : bool :=
  match outcome (has_linkedin_cookies h cookiefile is_firefox) with
  | Ok found => found
  | Raised _ => false
  end.

(** [ranked] is [files] split in two buckets, the [P] ones first, each
    bucket in the order of [files]. *)
Definition stable_partition (P : string -> bool) (files ranked : list string)
    : Prop :=
  exists prioritized others,
    ranked = prioritized ++ others
    /\ Forall (fun f => P f = true) prioritized
    /\ Forall (fun f => P f = false) others
    /\ prioritized `sublist_of` files
    /\ others `sublist_of` files
    /\ ranked ≡ₚ files.

(** ** What the extractors promise *)

(** The queries by what they select on, in the order of priority. *)
Definition fx_grouped_domain : string :=
  "SELECT name, value, host, path, expiry, isSecure, isHttpOnly FROM moz_cookies WHERE (baseDomain='linkedin.com' OR baseDomain='.linkedin.com')".
Definition fx_host_list : string :=
  "SELECT name, value, host, path, expiry, isSecure, isHttpOnly FROM moz_cookies WHERE (host='linkedin.com' OR host='.linkedin.com' OR host='www.linkedin.com' OR host LIKE '%.linkedin.com')".
Definition fx_host_substring : string :=
  "SELECT name, value, host, path, expiry, isSecure, isHttpOnly FROM moz_cookies WHERE host LIKE '%linkedin.com'".
Definition cr_substring : string :=
  "SELECT name, value, host_key, path, expires_utc, is_secure, is_httponly FROM cookies WHERE host_key LIKE '%linkedin.com'".
Definition cr_dotted_substring : string :=
  "SELECT name, value, host_key, path, expires_utc, is_secure, is_httponly FROM cookies WHERE host_key LIKE '%.linkedin.com'".
Definition cr_exact_host : string :=
  "SELECT name, value, host_key, path, expires_utc, is_secure, is_httponly FROM cookies WHERE host_key='www.linkedin.com'".

(** A query the Firefox loop passes over: a schema error or no row. *)
Definition skipped_firefox (conn : Database) (q : string) : Prop :=
  fetchall conn q = Raised OperationalError \/ fetchall conn q = Ok [].

(** A query the Chrome/Edge loop passes over: any error or no row. *)
Definition skipped_chrome (conn : Database) (q : string) : Prop :=
  (exists e, fetchall conn q = Raised e) \/ fetchall conn q = Ok [].

(** The rows with their text hosts, when every host is text. *)
Fixpoint typed_rows (rows : list SqlRow) : option (list RawCookieRow) :=
  match rows with
  | [] => Some []
  | r :: rest =>
    match typed_row r, typed_rows rest with
    | Some row, Some rows' => Some (row :: rows')
    | _, _ => None
    end
  end.

(** A query the Chrome/Edge loop passes over: any error, no row, or rows
    of which one has a host that is not text. *)
Definition passed_over_chrome (conn : Database) (q : string) : Prop :=
  skipped_chrome conn q
  \/ exists rows, fetchall conn q = Ok rows /\ typed_rows rows = None.

(** The queries sent to the store are the first [n] of [queries]; a query
    among them that answered rows, all with a text host, is the last one
    sent, and the result is made of its rows by [build]. *)
Definition stops_at_first_rows (conn : Database) (queries : list string)
    (build : list RawCookieRow -> list Cookie)
    (run : Eff (option (list Cookie))) : Prop :=
  exists n,
    executed (trace run) = take n queries
    /\ forall i q rows,
        i < n -> queries !! i = Some q ->
        fetchall conn q = Ok (map sql_row rows) -> rows <> [] ->
        n = S i /\ outcome run = Ok (Some (build rows)).

(** A query among those sent that answered a row without a text host is
    the last one sent; the store gives nothing and [warning] is printed. *)
Definition ends_at_rows_without_host (conn : Database)
    (queries : list string) (warning : Message)
    (run : Eff (option (list Cookie))) : Prop :=
  exists n,
    executed (trace run) = take n queries
    /\ forall i q rows,
        i < n -> queries !! i = Some q ->
        fetchall conn q = Ok rows -> typed_rows rows = None ->
        n = S i /\ outcome run = Ok None
        /\ prints (trace run) = [warning].

(** [q], at the end of [pre], is the first query of [queries] with rows,
    and the hosts of its rows are text. *)
Definition first_with_rows (skipped : string -> Prop) (conn : Database)
    (queries pre : list string) (q : string) (rows : list RawCookieRow)
    : Prop :=
  (exists post, queries = pre ++ q :: post)
  /\ Forall skipped pre
  /\ fetchall conn q = Ok (map sql_row rows)
  /\ rows <> [].

(** [q], at the end of [pre], is the first query of [queries] that is not
    passed over, and one of its rows has a host that is not text. *)
Definition first_without_host (skipped : string -> Prop) (conn : Database)
    (queries pre : list string) (q : string) : Prop :=
  (exists post, queries = pre ++ q :: post)
  /\ Forall skipped pre
  /\ exists rows, fetchall conn q = Ok rows /\ typed_rows rows = None.

(** A value the Chrome/Edge extractor cannot read as text. *)
Definition undecodable (v : CellValue) : Prop :=
  exists bs, v = VBytes bs /\ Py.decode_utf8 bs = None.

(** The value is the text [s], or bytes that are the UTF-8 of [s]. *)
Definition readable_as (v : CellValue) (s : string) : Prop :=
  v = VText s \/ exists bs, v = VBytes bs /\ Py.decode_utf8 bs = Some s.

(** ** A host without any cookie store *)

Definition no_stores (h : Host) : Prop :=
  firefox_candidates h = []
  /\ chromium_candidates h (chrome_base_paths h) = []
  /\ chromium_candidates h (edge_base_paths h) = [].

(** ** Further statements about the probe and the extractors *)

(** The call returns, it does not raise. *)
Definition returns {A} (m : Eff A) : Prop := exists a, outcome m = Ok a.

Definition positive_count (conn : Database) (sql : string) : Prop :=
  exists n, fetchone conn sql = Ok (Some n) /\ (0 < n)%Z.

(** What makes the probe of an opened store answer true. *)
Definition probe_finds (conn : Database) (is_firefox : bool) : Prop :=
  if is_firefox
  then positive_count conn probe_baseDomain
       \/ (fetchone conn probe_baseDomain = Raised OperationalError
           /\ positive_count conn probe_host)
  else positive_count conn probe_host_key.

(** The two extractors as one, by family. *)
Definition extractor (firefox : bool) (h : Host) (cookiefile : string)
    : Eff (option (list Cookie)) :=
  if firefox then extract_cookies_from_firefox h cookiefile
  else extract_cookies_from_chrome_edge h cookiefile.

Definition queries_of (firefox : bool) : list string :=
  if firefox then firefox_queries else chrome_queries.

Definition cookies_of_rows (firefox : bool) (rows : list RawCookieRow)
    : list Cookie :=
  if firefox then firefox_rows rows else chrome_rows rows.

Definition skipped (firefox : bool) (conn : Database) (q : string) : Prop :=
  if firefox then skipped_firefox conn q else skipped_chrome conn q.

Definition warning_of (firefox : bool) (cookiefile : string) : Message :=
  if firefox then WarnFirefox cookiefile else WarnChrome cookiefile.

(** What every cookie of a result satisfies. *)
Definition well_formed (c : Cookie) : Prop :=
  path c <> EmptyString
  /\ expiry c <> Some 0%Z
  /\ chrome_domain (domain c) = domain c
  /\ (has_dot (domain c) -> starts_with_dot (domain c)).

Definition text_valued (c : Cookie) : Prop := exists s, value c = VText s.

(** ** Further statements about the aggregator *)

(** What the store at [cookiefile] adds to [all_cookies]: the result of the
    extractor picked by the path, nothing for [None]. *)
Definition contribution (h : Host) (cookiefile : string) : list Cookie :=
  match outcome (extractor (looks_like_firefox cookiefile) h cookiefile) with
  | Ok (Some cookies) => cookies
  | _ => []
  end.

(** ** Further statements about a run *)

(** The COUNT statements of the probe, by family. *)
Definition probes (is_firefox : bool) : list string :=
  if is_firefox then [probe_baseDomain; probe_host] else [probe_host_key].

(** What the ranking returns, as a value. *)
Definition ranking (h : Host) (is_firefox : bool) (files : list string)
    : list string :=
  filter (fun f => confirmed h is_firefox f = true) files
  ++ filter (fun f => confirmed h is_firefox f = false) files.

(** Every store file a locator can come up with. *)
Definition candidates (h : Host) : list string :=
  firefox_candidates h
  ++ chromium_candidates h (chrome_base_paths h)
  ++ chromium_candidates h (edge_base_paths h).

(** The store files a run reads, and the cookies it collects from them. *)
Definition selected (h : Host) (browser : option string) : list string :=
  match outcome (select_cookie_files h browser true) with
  | Ok (files, _) => files
  | Raised _ => []
  end.

Definition collected (h : Host) (browser : option string) : list Cookie :=
  flat_map (contribution h) (selected h browser).

(** The run can write its result: there is something to write, the output
    file opens, no value is [bytes] and the write goes through. *)
Definition can_save (h : Host) (all_cookies : list Cookie)
    (output_file : string) : bool :=
  match all_cookies with
  | [] => false
  | _ :: _ =>
    match open_w h output_file, write_w h output_file with
    | Ok _, Ok _ => json_serializable (remove_duplicates all_cookies)
    | _, _ => false
    end
  end.

Definition is_warning (m : Message) : Prop :=
  exists cookiefile, m = WarnFirefox cookiefile \/ m = WarnChrome cookiefile.

Definition is_print (ev : Event) : bool :=
  match ev with Printed _ => true | _ => false end.

(** What a run does apart from printing. *)
Definition effects (t : list Event) : list Event :=
  List.filter (fun ev => negb (is_print ev)) t.

(** A statement a run may send to a store: a COUNT of the family that
    located the store, or a SELECT of the family its path points to. *)
Definition store_statement (h : Host) (cookiefile sql : string) : Prop :=
  (cookiefile ∈ firefox_candidates h /\ In sql (probes true))
  \/ (cookiefile ∈ chromium_candidates h (chrome_base_paths h)
                    ++ chromium_candidates h (edge_base_paths h)
      /\ In sql (probes false))
  \/ (cookiefile ∈ candidates h
      /\ In sql (queries_of (looks_like_firefox cookiefile))).

(** The auto-detection is at work: [browser] names none of the three. *)
Definition auto_detect (browser : option string) : Prop :=
  browser_is browser "firefox" = false
  /\ browser_is browser "chrome" = false
  /\ browser_is browser "edge" = false.

(** ** Statements about the consumer of the cookie file *)

(** [o] when it is there and truthy. *)
Definition keep_truthy (o : option Json) : option Json :=
  match o with
  | Some v => if Wrapper.truthy v then Some v else None
  | None => None
  end.

(** The browser cookie [d] carries what the extracted cookie [c] says. *)
Definition handed_over (c : Cookie) (d : gmap string Json) : Prop :=
  d !! "name" = Some (JStr (name c))
  /\ (exists v, value c = VText v /\ d !! "value" = Some (JStr v))
  /\ d !! "domain" = Some (JStr (domain c))
  /\ d !! "path" = Some (JStr (path c))
  /\ d !! "expires" = JInt <$> expiry_or_none (expiry c)
  /\ d !! "secure" = (if secure c then Some (JBool true) else None)
  /\ d !! "httpOnly" = (if httpOnly c then Some (JBool true) else None)
  /\ d !! "expiry" = None.

(** ** Sample rows *)

Definition row_li_at : RawCookieRow :=
  mkRow "li_at" (VText "AQEDAT") "www.linkedin.com" None (Some 0%Z)
        (Some 0%Z) None.

Definition row_session : RawCookieRow :=
  mkRow "JSESSIONID" (VBytes [x61; x6a; x61; x78]) ".linkedin.com"
        (Some EmptyString) (Some 13390000000000000%Z) None (Some 1%Z).

Definition row_lang : RawCookieRow :=
  mkRow "lang" (VText "v=2&lang=en-us") ".linkedin.com" (Some "/")
        (Some 0%Z) (Some 1%Z) (Some 0%Z).

Definition row_bscookie : RawCookieRow :=
  mkRow "bscookie" (VText "v=1&2024") ".www.linkedin.com" (Some "/")
        (Some 13390000000000000%Z) (Some 1%Z) (Some 1%Z).

(** A value as Chrome writes it when it encrypts: not UTF-8. *)
Definition row_encrypted : RawCookieRow :=
  mkRow "li_at" (VBytes [x76; x31; x30; xff; xfe]) ".www.linkedin.com"
        (Some "/") (Some 1790000000%Z) (Some 1%Z) (Some 1%Z).

(** ** Sample hosts *)

(** A store that has rows for one query only; the other queries find a
    column missing. *)
Definition answers_only (q0 : string) (rows : list RawCookieRow) : Database :=
  {| fetchall q :=
       if String.eqb q q0 then Ok (map sql_row rows)
       else Raised OperationalError;
     fetchone _ := Ok (Some (Z.of_nat (length rows))) |}.

Definition chrome_store_path : string :=
  "/home/u/.config/google-chrome/Default/Cookies".

Definition firefox_store_path : string :=
  "/home/u/.mozilla/firefox/abc.default/cookies.sqlite".

(** A Linux host with at most a default Chrome profile and the given
    Firefox profiles. *)
Definition linux_host (stores : string -> Exc Database) (chrome_default : bool)
    (firefox_profiles : list string) : Host :=
  {| system := "Linux";
     expanduser p :=
       match p with
       | String "~" rest => String.append "/home/u" rest
       | _ => p
       end;
     exists_ p :=
       chrome_default
       && (String.eqb p "/home/u/.config/google-chrome"
           || String.eqb p chrome_store_path);
     glob p :=
       if String.eqb p "/home/u/.mozilla/firefox/*/cookies.sqlite"
       then firefox_profiles else [];
     connect := stores;
     open_w _ := Ok tt;
     write_w _ := Ok tt |}.

Definition host_empty : Host :=
  linux_host (fun _ => Raised OperationalError) false [].

Definition chrome_db : Database :=
  answers_only cr_dotted_substring [row_lang; row_bscookie].

Definition host_chrome : Host :=
  linux_host (fun _ => Ok chrome_db) true [].

(** A Chrome store with two cookies of the site, the first with a value
    that is not UTF-8: the two substring queries find both, the exact
    host finds none. *)
Definition chrome_encrypted_db : Database :=
  {| fetchall q :=
       if String.eqb q cr_exact_host then Ok []
       else Ok [sql_row row_encrypted; sql_row row_lang];
     fetchone _ := Ok (Some 2%Z) |}.

Definition host_chrome_encrypted : Host :=
  linux_host (fun _ => Ok chrome_encrypted_db) true [].

(** A Firefox store with the same two cookies: every query finds both. *)
Definition firefox_db : Database :=
  {| fetchall _ := Ok [sql_row row_encrypted; sql_row row_lang];
     fetchone _ := Ok (Some 2%Z) |}.

Definition host_firefox : Host :=
  linux_host (fun _ => Ok firefox_db) false [firefox_store_path].

(** A Firefox store of the older schema: no [baseDomain] column. *)
Definition legacy_firefox_db : Database :=
  {| fetchall q :=
       if String.eqb q fx_grouped_domain then Raised OperationalError
       else if String.eqb q fx_host_list then Ok []
       else Ok [sql_row row_li_at];
     fetchone q :=
       if String.eqb q probe_baseDomain then Raised OperationalError
       else Ok (Some 1%Z) |}.

Definition host_legacy_firefox : Host :=
  linux_host (fun _ => Ok legacy_firefox_db) false [firefox_store_path].

(** A store without any of the tables: every statement finds nothing to
    query. *)
Definition foreign_db : Database :=
  {| fetchall _ := Raised OperationalError;
     fetchone _ := Raised OperationalError |}.

Definition host_foreign : Host :=
  linux_host (fun _ => Ok foreign_db) true [firefox_store_path].

(** A Firefox store whose second query hits a damaged page. *)
Definition damaged_db : Database :=
  {| fetchall q :=
       if String.eqb q fx_grouped_domain then Ok []
       else if String.eqb q fx_host_list then Raised OtherException
       else Ok [sql_row row_li_at];
     fetchone _ := Ok (Some 1%Z) |}.

Definition host_damaged : Host :=
  linux_host (fun _ => Ok damaged_db) false [firefox_store_path].

(** A row as a store can hold it, with the host kept as a BLOB: the
    bytes of [.linkedin.com]. *)
Definition row_blob_host : SqlRow :=
  {| sql_name := "bcookie";
     sql_value := VText "v=2&4f1c";
     sql_host := HostBlob [x2e; x6c; x69; x6e; x6b; x65; x64; x69; x6e;
                           x2e; x63; x6f; x6d];
     sql_path := Some "/";
     sql_expiry := Some 1790000000%Z;
     sql_secure := Some 1%Z;
     sql_httponly := Some 1%Z |}.

(** A Firefox row of the site (by [baseDomain]) whose host is NULL. *)
Definition row_null_host : SqlRow :=
  {| sql_name := "li_at";
     sql_value := VText "AQEDAT";
     sql_host := HostNull;
     sql_path := Some "/";
     sql_expiry := Some 1790000000%Z;
     sql_secure := Some 1%Z;
     sql_httponly := Some 1%Z |}.

(** A Chrome store with two rows of the site: the one with the BLOB host
    and [row_li_at], on [www.linkedin.com].  SQLite matches a BLOB with
    LIKE as it does text, and finds no BLOB equal to a text: the two
    substring queries answer both rows, the exact host only the second. *)
Definition blob_host_db : Database :=
  {| fetchall q :=
       if String.eqb q cr_exact_host then Ok [sql_row row_li_at]
       else Ok [row_blob_host; sql_row row_li_at];
     fetchone _ := Ok (Some 2%Z) |}.

Definition host_blob_host : Host :=
  linux_host (fun _ => Ok blob_host_db) true [].

(** A Firefox store with two rows of the site: the one with the NULL host
    and [row_lang].  The query on [baseDomain] answers both, the queries
    on [host] only the second. *)
Definition null_host_db : Database :=
  {| fetchall q :=
       if String.eqb q fx_grouped_domain
       then Ok [row_null_host; sql_row row_lang]
       else Ok [sql_row row_lang];
     fetchone q :=
       if String.eqb q probe_baseDomain then Ok (Some 2%Z)
       else Ok (Some 1%Z) |}.

Definition host_null_host : Host :=
  linux_host (fun _ => Ok null_host_db) false [firefox_store_path].

(** * Properties *)

(** ** Text tests *)

Lemma prefix_empty (s : string) : String.prefix EmptyString s = true.
Proof. destruct s; reflexivity. Qed.

Lemma startswith_char (s : string) (c : ascii) :
  Py.startswith s (String c EmptyString) = true <-> exists t, s = String c t.
Proof.
  unfold Py.startswith. destruct s as [|a t]; simpl.
  - split; [discriminate | intros [t' Ht]; discriminate].
  - destruct (ascii_dec c a) as [->|Hne].
    + rewrite prefix_empty. split; eauto.
    + split; [discriminate | intros [t' Ht]; congruence].
Qed.

Lemma contains_char (s : string) (c : ascii) :
  Py.contains s (String c EmptyString) = true <-> In c (list_ascii_of_string s).
Proof.
  induction s as [|a t IH]; simpl.
  - split; [discriminate | tauto].
  - destruct (ascii_dec c a) as [->|Hne].
    + rewrite prefix_empty. simpl. tauto.
    + simpl. rewrite IH. split; [tauto | intros [Heq|Hin]; [congruence | done]].
Qed.

Lemma startswith_contains (s : string) (c : ascii) :
  Py.startswith s (String c EmptyString) = true ->
  Py.contains s (String c EmptyString) = true.
Proof.
  intros [t ->]%startswith_char. apply contains_char. simpl. tauto.
Qed.

(** The two families write the same rule in two ways. *)
Lemma firefox_chrome_domain (host : string) :
  firefox_domain host = chrome_domain host.
Proof.
  unfold firefox_domain, chrome_domain.
  destruct (Py.startswith host "."); reflexivity.
Qed.

Lemma chrome_domain_dotted (t : string) :
  chrome_domain (String "." t) = String "." t.
Proof.
  unfold chrome_domain.
  replace (Py.startswith (String "." t) ".") with true; [reflexivity|].
  symmetry. apply startswith_char. eauto.
Qed.

Lemma chrome_domain_cases (host : string) :
  (exists t, host = String "." t) /\ chrome_domain host = host
  \/ (~ (exists t, host = String "." t)) /\ In "."%char (list_ascii_of_string host)
     /\ chrome_domain host = String "." host
  \/ ~ In "."%char (list_ascii_of_string host) /\ chrome_domain host = host.
Proof.
  unfold chrome_domain.
  destruct (Py.startswith host ".") eqn:Hs.
  - left. split; [by apply startswith_char | reflexivity].
  - right. destruct (Py.contains host ".") eqn:Hc.
    + left. split; [|split; [by apply contains_char | reflexivity]].
      intros Hex%startswith_char. congruence.
    + right. split; [|reflexivity].
      intros Hin%contains_char. congruence.
Qed.

(** C8. Domain normalisation is idempotent, for the rule as either family
    writes it: normalising a normalised domain gives it back, and a domain
    that already starts with a dot is left as it is. *)
Theorem domain_normalization_idempotent :
  forall host : string,
    firefox_domain (firefox_domain host) = firefox_domain host
    /\ chrome_domain (chrome_domain host) = chrome_domain host
    /\ firefox_domain (String "." host) = String "." host
    /\ chrome_domain (String "." host) = String "." host.
Proof.
  intros host.
  assert (Hc : chrome_domain (chrome_domain host) = chrome_domain host).
  { destruct (chrome_domain_cases host) as [[_ E]|[(_ & _ & E)|[Hn E]]].
    - by rewrite !E.
    - rewrite E. apply chrome_domain_dotted.
    - by rewrite !E. }
  rewrite !firefox_chrome_domain. auto using chrome_domain_dotted.
Qed.

(** ** Normaliser *)

Lemma chrome_cookie_fields (row : RawCookieRow) (c : Cookie) :
  chrome_cookie row = Some c ->
  name c = row_name row
  /\ chrome_value (row_value row) = Some (value c)
  /\ domain c = firefox_domain (row_host row)
  /\ path c = path_or_root (row_path row)
  /\ expiry c = expiry_or_none (row_expiry row)
  /\ secure c = flag_or true (row_secure row)
  /\ httpOnly c = flag_or false (row_httponly row).
Proof.
  unfold chrome_cookie. rewrite firefox_chrome_domain.
  destruct (chrome_value (row_value row)); [|discriminate].
  intros [= <-]. simpl. tauto.
Qed.

Lemma cookie_of_fields (row : RawCookieRow) (c : Cookie) :
  cookie_of row c ->
  domain c = chrome_domain (row_host row)
  /\ path c = path_or_root (row_path row)
  /\ expiry c = expiry_or_none (row_expiry row)
  /\ secure c = flag_or true (row_secure row)
  /\ httpOnly c = flag_or false (row_httponly row).
Proof.
  intros [->|H].
  - simpl. rewrite firefox_chrome_domain. tauto.
  - apply chrome_cookie_fields in H. rewrite <- firefox_chrome_domain. tauto.
Qed.

(** C4. Whatever the family, the cookie made of a row has: the host as its
    domain when the host starts with a dot, the host with a dot in front
    when it has a dot but does not start with one, the host unchanged when
    it has no dot; path "/" for an empty or null path; [secure] the stored
    flag (a stored 0 stays false) or true for null; [httpOnly] the stored
    flag or false for null. *)
Theorem normalization_contract :
  forall (row : RawCookieRow) (c : Cookie),
    cookie_of row c -> normalized row c.
Proof.
  intros row c (Hd & Hp & _ & Hs & Hh)%cookie_of_fields.
  unfold normalized, starts_with_dot, has_dot.
  rewrite Hd, Hp, Hs, Hh. clear c Hd Hp Hs Hh.
  pose proof (chrome_domain_cases (row_host row)) as Hcases.
  repeat apply conj.
  - intros [t ->]. apply chrome_domain_dotted.
  - intros Hns Hdot. destruct Hcases as [[D _]|[(_ & _ & E)|[D _]]];
      [contradiction | exact E | contradiction].
  - intros Hnd. destruct Hcases as [[_ E]|[(_ & D & _)|[_ E]]];
      [exact E | contradiction | exact E].
  - intros [-> | ->]; reflexivity.
  - intros z ->. reflexivity.
  - intros ->. reflexivity.
  - intros ->. reflexivity.
  - intros z ->. reflexivity.
  - intros ->. reflexivity.
Qed.

Lemma normalization_contract_witness :
  normalized row_li_at (firefox_cookie row_li_at)
  /\ exists c, chrome_cookie row_session = Some c /\ normalized row_session c.
Proof.
  split.
  - apply (normalization_contract row_li_at). left. reflexivity.
  - eexists. split; [reflexivity|].
    apply (normalization_contract row_session). right. reflexivity.
Defined.

(** C10. Whatever the family, a row whose stored expiry is null or zero
    gives a cookie with a null expiry (so a Chrome/Edge session cookie with
    [expires_utc = 0] has expiry null, not 0), and any other stored expiry
    is passed through unchanged. *)
Theorem falsy_expiry_is_null :
  forall (row : RawCookieRow) (c : Cookie),
    cookie_of row c -> expiry_rule row c.
Proof.
  intros row c (_ & _ & He & _)%cookie_of_fields.
  unfold expiry_rule. rewrite He. split.
  - intros [->| ->]; reflexivity.
  - intros z -> Hz. unfold expiry_or_none, Py.truthy_int.
    destruct (Z.eqb_spec z 0); [contradiction | reflexivity].
Qed.

Lemma falsy_expiry_is_null_witness :
  expiry_rule row_session (firefox_cookie row_session)
  /\ exists c, chrome_cookie row_li_at = Some c
               /\ expiry c = None
               /\ expiry_rule row_li_at c.
Proof.
  split.
  - apply (falsy_expiry_is_null row_session). left. reflexivity.
  - eexists. split; [reflexivity|]. split; [reflexivity|].
    apply (falsy_expiry_is_null row_li_at). right. reflexivity.
Defined.

(** ** Deduplication *)

Lemma dedup_loop_acc (l : list Cookie) (seen : gset (string * string))
    (acc : list Cookie) :
  dedup_loop l seen acc = acc ++ dedup_loop l seen [].
Proof.
  revert seen acc. induction l as [|a r IH]; intros seen acc; simpl.
  - by rewrite app_nil_r.
  - case_decide.
    + apply IH.
    + rewrite (IH _ (acc ++ [a])), (IH _ [a]). by rewrite <- app_assoc.
Qed.

Lemma dedup_loop_cons (a : Cookie) (r : list Cookie)
    (seen : gset (string * string)) :
  dedup_loop (a :: r) seen [] =
    if decide (key a ∈ seen) then dedup_loop r seen []
    else a :: dedup_loop r ({[key a]} ∪ seen) [].
Proof. simpl. case_decide; [done|]. by rewrite dedup_loop_acc. Qed.

Lemma dedup_loop_elem (l : list Cookie) (seen : gset (string * string))
    (c : Cookie) :
  (c ∈ dedup_loop l seen []) <->
  (key c ∉ seen) /\ exists i, first_with_key l i c.
Proof.
  revert seen. induction l as [|a r IH]; intros seen.
  - simpl. split.
    + intros H. by apply elem_of_nil in H.
    + intros (_ & i & Hi & _). by rewrite lookup_nil in Hi.
  - rewrite dedup_loop_cons. case_decide as Ha.
    + rewrite IH. split.
      * intros (Hc & i & Hi & Hfirst). split; [done|].
        exists (S i). split; [done|].
        intros [|j] c' Hj Hc'; simpl in Hc'.
        -- injection Hc' as <-. congruence.
        -- apply (Hfirst j); [lia | done].
      * intros (Hc & [|i] & Hi & Hfirst); simpl in Hi.
        -- injection Hi as <-. contradiction.
        -- split; [done|]. exists i. split; [done|].
           intros j c' Hj Hc'. apply (Hfirst (S j)); [lia | done].
    + rewrite elem_of_cons, IH. split.
      * intros [->|(Hc & i & Hi & Hfirst)].
        -- split; [done|]. exists 0. split; [done|]. intros j c' Hj. lia.
        -- split; [intros Hin; apply Hc, elem_of_union; by right|].
           exists (S i). split; [done|].
           intros [|j] c' Hj Hc'; simpl in Hc'.
           ++ injection Hc' as <-. intros Heq. apply Hc, elem_of_union.
              left. by apply elem_of_singleton.
           ++ apply (Hfirst j); [lia | done].
      * intros (Hc & [|i] & Hi & Hfirst); simpl in Hi.
        -- injection Hi as <-. by left.
        -- right. split.
           ++ assert (key a <> key c) by (apply (Hfirst 0); [lia | done]).
              intros [Hin%elem_of_singleton|Hin]%elem_of_union; congruence.
           ++ exists i. split; [done|].
              intros j c' Hj Hc'. apply (Hfirst (S j)); [lia | done].
Qed.

Lemma dedup_loop_NoDup (l : list Cookie) (seen : gset (string * string)) :
  NoDup (key <$> dedup_loop l seen []).
Proof.
  revert seen. induction l as [|a r IH]; intros seen.
  - simpl. constructor.
  - rewrite dedup_loop_cons. case_decide as Ha; [apply IH|].
    rewrite fmap_cons. constructor; [|apply IH].
    intros (c & Hk & Hc)%list_elem_of_fmap.
    apply dedup_loop_elem in Hc as [Hc _].
    apply Hc, elem_of_union. left. by apply elem_of_singleton.
Qed.

Lemma dedup_loop_sublist (l : list Cookie) (seen : gset (string * string)) :
  dedup_loop l seen [] `sublist_of` l.
Proof.
  revert seen. induction l as [|a r IH]; intros seen.
  - simpl. constructor.
  - rewrite dedup_loop_cons. case_decide.
    + apply sublist_cons, IH.
    + apply sublist_skip, IH.
Qed.

Lemma first_with_key_exists (l : list Cookie) (c : Cookie) :
  c ∈ l -> exists i c', first_with_key l i c' /\ key c' = key c.
Proof.
  induction l as [|a r IH]; intros Hc.
  - by apply elem_of_nil in Hc.
  - destruct (decide (key a = key c)) as [Heq|Hne].
    + exists 0, a. split; [|done]. split; [done|]. intros j c' Hj. lia.
    + apply elem_of_cons in Hc as [->|Hc]; [done|].
      destruct (IH Hc) as (i & c' & [Hi Hfirst] & Hk).
      exists (S i), c'. split; [|done]. split; [done|].
      intros [|j] c'' Hj Hc''; simpl in Hc''.
      * injection Hc'' as <-. congruence.
      * apply (Hfirst j); [lia | done].
Qed.

Lemma same_key_key (c c' : Cookie) : same_key c c' <-> key c = key c'.
Proof.
  unfold same_key, key. split; [by intros [-> ->] | by intros [= -> ->]].
Qed.

Lemma first_occurrence_key (l : list Cookie) (i : nat) (c : Cookie) :
  first_occurrence l i c <-> first_with_key l i c.
Proof.
  unfold first_occurrence, first_with_key. split; intros [Hi Hfirst].
  - split; [done|]. intros j c' Hj Hc' Hk.
    by apply (Hfirst j c' Hj Hc'), same_key_key.
  - split; [done|]. intros j c' Hj Hc' Hk%same_key_key.
    by apply (Hfirst j c' Hj Hc').
Qed.

Lemma first_with_key_skip (a : Cookie) (r : list Cookie) (i : nat)
    (c : Cookie) :
  first_with_key (a :: r) (S i) c <-> key a <> key c /\ first_with_key r i c.
Proof.
  unfold first_with_key. simpl. split.
  - intros [Hi Hfirst]. split; [apply (Hfirst 0); [lia | done]|].
    split; [done|]. intros j c' Hj Hc'. apply (Hfirst (S j)); [lia | done].
  - intros (Ha & Hi & Hfirst). split; [done|].
    intros [|j] c' Hj Hc'; simpl in Hc'; [by injection Hc' as <-|].
    apply (Hfirst j); [lia | done].
Qed.

Lemma first_with_key_head (a : Cookie) (r : list Cookie) (c : Cookie) :
  first_with_key (a :: r) 0 c <-> c = a.
Proof.
  unfold first_with_key. simpl. split.
  - by intros [[= ->] _].
  - intros ->. split; [done|]. intros j c' Hj. lia.
Qed.

Lemma dedup_loop_indices (l : list Cookie) (seen : gset (string * string)) :
  exists idx,
    StronglySorted lt idx
    /\ (forall i, i ∈ idx <-> exists c, (key c ∉ seen) /\ first_with_key l i c)
    /\ taken_at l idx (dedup_loop l seen []).
Proof.
  revert seen. induction l as [|a r IH]; intros seen.
  - exists []. split; [constructor|]. split; [|constructor].
    intros i. split; [by intros ?%elem_of_nil|].
    intros (c & _ & Hi & _). by rewrite lookup_nil in Hi.
  - rewrite dedup_loop_cons. case_decide as Ha.
    + destruct (IH seen) as (idx & Hsorted & Hmem & Htaken).
      exists (S <$> idx). split; [|split].
      * apply (StronglySorted_fmap S lt lt); [|done]. intros x y. lia.
      * intros i. rewrite list_elem_of_fmap. split.
        -- intros (i' & -> & (c & Hc & Hfirst)%Hmem).
           exists c. split; [done|]. apply first_with_key_skip.
           split; [congruence | done].
        -- intros (c & Hc & Hfirst). destruct i as [|i].
           ++ apply first_with_key_head in Hfirst as ->. contradiction.
           ++ apply first_with_key_skip in Hfirst as [_ Hfirst].
              exists i. split; [done|]. apply Hmem. eauto.
      * unfold taken_at. by apply Forall2_fmap_l.
    + destruct (IH ({[key a]} ∪ seen)) as (idx & Hsorted & Hmem & Htaken).
      exists (0 :: (S <$> idx)). split; [|split].
      * constructor.
        -- apply (StronglySorted_fmap S lt lt); [|done]. intros x y. lia.
        -- apply Forall_fmap, Forall_forall. intros x _. simpl. lia.
      * intros i. rewrite elem_of_cons, list_elem_of_fmap. split.
        -- intros [->|(i' & -> & (c & Hc & Hfirst)%Hmem)].
           ++ exists a. split; [done|]. by apply first_with_key_head.
           ++ exists c. split; [intros Hin; apply Hc, elem_of_union; by right|].
              apply first_with_key_skip. split; [|done].
              intros Hk. apply Hc, elem_of_union. left.
              by apply elem_of_singleton.
        -- intros (c & Hc & Hfirst). destruct i as [|i]; [by left|]. right.
           apply first_with_key_skip in Hfirst as [Hk Hfirst].
           exists i. split; [done|]. apply Hmem. exists c. split; [|done].
           intros [Hin%elem_of_singleton|Hin]%elem_of_union; congruence.
      * constructor; [done|]. unfold taken_at. by apply Forall2_fmap_l.
Qed.

Lemma NoDup_fmap_lookup {A B} (f : A -> B) (l : list A) (j j' : nat)
    (x y : A) :
  NoDup (f <$> l) -> l !! j = Some x -> l !! j' = Some y -> f x = f y ->
  j = j'.
Proof.
  intros Hnd Hj Hj' Heq. apply (NoDup_lookup (f <$> l) j j' (f x)); [done|..].
  - by rewrite list_lookup_fmap, Hj.
  - by rewrite list_lookup_fmap, Hj', Heq.
Qed.

(** C3. The deduplicated list has exactly one cookie per (name, domain):
    no two of its positions hold cookies with the same name and domain,
    and every cookie of the input has one with its name and domain in it.
    A cookie is in it exactly when it is the first of the input with its
    name and domain.  The retained cookies are those at the indices of
    these first occurrences, taken in increasing order of index, that is
    in the order of discovery.  Deduplication is a function of the list:
    it prints nothing. *)
Theorem deduplication_keeps_first :
  forall all_cookies : list Cookie,
    (forall j j' c c',
        remove_duplicates all_cookies !! j = Some c ->
        remove_duplicates all_cookies !! j' = Some c' ->
        same_key c c' -> j = j')
    /\ (forall c, c ∈ remove_duplicates all_cookies <->
                  exists i, first_occurrence all_cookies i c)
    /\ (forall c, c ∈ all_cookies ->
                  exists c', c' ∈ remove_duplicates all_cookies
                             /\ same_key c' c)
    /\ (exists idx,
          StronglySorted lt idx
          /\ (forall i, i ∈ idx <->
                        exists c, first_occurrence all_cookies i c)
          /\ taken_at all_cookies idx (remove_duplicates all_cookies))
    /\ NoDup (key <$> remove_duplicates all_cookies)
    /\ (forall c c', key c = key c' <-> same_key c c').
Proof.
  intros l. unfold remove_duplicates.
  assert (Hel : forall c, c ∈ dedup_loop l ∅ [] <-> exists i, first_with_key l i c).
  { intros c. rewrite dedup_loop_elem. split; [tauto|].
    intros Hex. split; [apply not_elem_of_empty | done]. }
  split; [|split; [|split; [|split; [|split]]]].
  - intros j j' c c' Hj Hj' Hk%same_key_key.
    by apply (NoDup_fmap_lookup key _ _ _ _ _ (dedup_loop_NoDup l ∅) Hj Hj').
  - intros c. rewrite Hel. split; intros [i Hi]; exists i;
      by apply first_occurrence_key.
  - intros c (i & c' & Hfirst & Hk)%first_with_key_exists.
    exists c'. split; [apply Hel; eauto | by apply same_key_key].
  - destruct (dedup_loop_indices l ∅) as (idx & Hsorted & Hmem & Htaken).
    exists idx. split; [done|]. split; [|done].
    intros i. rewrite Hmem. split.
    + intros (c & _ & Hfirst). exists c. by apply first_occurrence_key.
    + intros (c & Hfirst). exists c.
      split; [apply not_elem_of_empty | by apply first_occurrence_key].
  - apply dedup_loop_NoDup.
  - intros c c'. symmetry. apply same_key_key.
Qed.

(** ** Traces and outcomes of composed calls *)

Lemma outcome_bind {A B} (m : Eff A) (k : A -> Eff B) :
  outcome (bind m k) =
    match outcome m with
    | Ok a => outcome (k a)
    | Raised e => Raised e
    end.
Proof. destruct m as [t [a|e]]; simpl; [destruct (k a)|]; reflexivity. Qed.

Lemma trace_bind {A B} (m : Eff A) (k : A -> Eff B) :
  trace (bind m k) =
    trace m ++ match outcome m with
               | Ok a => trace (k a)
               | Raised _ => []
               end.
Proof.
  destruct m as [t [a|e]]; simpl; [destruct (k a); reflexivity|].
  by rewrite app_nil_r.
Qed.

Lemma bind_ok {A B} (t : list Event) (a : A) (k : A -> Eff B) :
  bind (t, Ok a) k = (t ++ trace (k a), outcome (k a)).
Proof. simpl. destruct (k a); reflexivity. Qed.

Lemma eff_eta {A} (m : Eff A) : m = (trace m, outcome m).
Proof. by destruct m. Qed.

Lemma prints_app (t1 t2 : list Event) :
  prints (t1 ++ t2) = prints t1 ++ prints t2.
Proof. apply omap_app. Qed.

Lemma executed_app (t1 t2 : list Event) :
  executed (t1 ++ t2) = executed t1 ++ executed t2.
Proof. apply omap_app. Qed.

(** ** Store prober *)

Lemma has_linkedin_cookies_total (h : Host) (cookiefile : string)
    (is_firefox : bool) :
  outcome (has_linkedin_cookies h cookiefile is_firefox)
  = Ok (confirmed h is_firefox cookiefile).
Proof.
  unfold confirmed, has_linkedin_cookies.
  destruct (probe_body h cookiefile is_firefox) as [t [b|e]]; reflexivity.
Qed.

(** C6. The probe of a store always returns a boolean and never raises; it
    prints nothing; every exception that leaves its body gives false, as do
    a store that cannot be opened, a store on which every statement fails,
    a failing Chrome/Edge count, a Firefox count failing with something
    else than [OperationalError], and a failing Firefox fallback count; and
    it returns true only after a count it executed on the opened store came
    back positive. *)
Theorem probe_swallows_errors :
  forall (h : Host) (cookiefile : string) (is_firefox : bool),
    (exists found,
        outcome (has_linkedin_cookies h cookiefile is_firefox) = Ok found)
    /\ prints (trace (has_linkedin_cookies h cookiefile is_firefox)) = []
    /\ (forall e,
          outcome (probe_body h cookiefile is_firefox) = Raised e ->
          outcome (has_linkedin_cookies h cookiefile is_firefox) = Ok false)
    /\ (forall e,
          connect h cookiefile = Raised e ->
          outcome (has_linkedin_cookies h cookiefile is_firefox) = Ok false)
    /\ (forall conn,
          connect h cookiefile = Ok conn ->
          (forall sql, exists e, fetchone conn sql = Raised e) ->
          outcome (has_linkedin_cookies h cookiefile is_firefox) = Ok false)
    /\ (forall conn e,
          connect h cookiefile = Ok conn ->
          is_firefox = false ->
          fetchone conn probe_host_key = Raised e ->
          outcome (has_linkedin_cookies h cookiefile is_firefox) = Ok false)
    /\ (forall conn,
          connect h cookiefile = Ok conn ->
          is_firefox = true ->
          fetchone conn probe_baseDomain = Raised OtherException ->
          outcome (has_linkedin_cookies h cookiefile is_firefox) = Ok false)
    /\ (forall conn e,
          connect h cookiefile = Ok conn ->
          is_firefox = true ->
          fetchone conn probe_baseDomain = Raised OperationalError ->
          fetchone conn probe_host = Raised e ->
          outcome (has_linkedin_cookies h cookiefile is_firefox) = Ok false)
    /\ (outcome (has_linkedin_cookies h cookiefile is_firefox) = Ok true ->
        exists conn sql n,
          connect h cookiefile = Ok conn
          /\ In (Executed cookiefile sql)
                (trace (has_linkedin_cookies h cookiefile is_firefox))
          /\ fetchone conn sql = Ok (Some n)
          /\ (0 < n)%Z).
Proof.
  intros h cookiefile is_firefox.
  split; [rewrite has_linkedin_cookies_total; eauto|].
  unfold has_linkedin_cookies, probe_body, execute_fetchone, counted.
  destruct is_firefox; destruct (connect h cookiefile) as [conn|e0]; simpl.
  - (* Firefox, opened *)
    destruct (fetchone conn probe_baseDomain) as [r1|[|]] eqn:E1; simpl;
      [|destruct (fetchone conn probe_host) as [r2|e2] eqn:E2; simpl|].
    all: repeat split; try done.
    all: try (intros c [= <-] Hall; destruct (Hall probe_baseDomain);
              congruence).
    all: try (intros c [= <-] Hall; destruct (Hall probe_host); congruence).
    all: try (intros c e [= <-]; congruence).
    all: try (intros c [= <-]; congruence).
    + intros [= Hpos]. destruct r1 as [n|]; [|done].
      exists conn, probe_baseDomain, n.
      repeat split; [by left | done | by apply Z.ltb_lt].
    + intros [= Hpos]. destruct r2 as [n|]; [|done].
      exists conn, probe_host, n.
      repeat split; [right; by left | done | by apply Z.ltb_lt].
  - repeat split; try done.
  - (* Chrome/Edge, opened *)
    destruct (fetchone conn probe_host_key) as [r|e] eqn:E; simpl.
    all: repeat split; try done.
    all: try (intros c [= <-] Hall; destruct (Hall probe_host_key);
              congruence).
    all: try (intros c e' [= <-]; congruence).
    intros [= Hpos]. destruct r as [n|]; [|done].
    exists conn, probe_host_key, n.
    repeat split; [by left | done | by apply Z.ltb_lt].
  - repeat split; try done.
Qed.

(** ** Ranking *)

Lemma rank_loop_outcome (h : Host) (is_firefox : bool)
    (cookie_files prioritized others : list string) :
  outcome (rank_loop h is_firefox cookie_files prioritized others)
  = Ok (prioritized
          ++ filter (fun f => confirmed h is_firefox f = true) cookie_files,
        others
          ++ filter (fun f => confirmed h is_firefox f = false) cookie_files).
Proof.
  revert prioritized others.
  induction cookie_files as [|f rest IH]; intros prioritized others.
  - simpl. by rewrite !app_nil_r.
  - cbn [rank_loop]. rewrite outcome_bind, has_linkedin_cookies_total.
    rewrite !filter_cons.
    destruct (confirmed h is_firefox f) eqn:Hf; rewrite IH.
    + rewrite decide_True by done. rewrite decide_False by done.
      by rewrite <- app_assoc.
    + rewrite decide_False by done. rewrite decide_True by done.
      by rewrite <- app_assoc.
Qed.

Lemma rank_outcome (h : Host) (is_firefox : bool) (cookie_files : list string) :
  outcome (rank h is_firefox cookie_files)
  = Ok (filter (fun f => confirmed h is_firefox f = true) cookie_files
        ++ filter (fun f => confirmed h is_firefox f = false) cookie_files).
Proof.
  unfold rank. rewrite outcome_bind, rank_loop_outcome. reflexivity.
Qed.

Lemma filter_stable_partition (P : string -> bool) (files : list string) :
  stable_partition P files
    (filter (fun f => P f = true) files ++ filter (fun f => P f = false) files).
Proof.
  exists (filter (fun f => P f = true) files),
         (filter (fun f => P f = false) files).
  split; [done|].
  split; [apply Forall_forall; by intros f [Hf _]%list_elem_of_filter|].
  split; [apply Forall_forall; by intros f [Hf _]%list_elem_of_filter|].
  split; [apply sublist_filter|].
  split; [apply sublist_filter|].
  induction files as [|f rest IH]; [done|].
  rewrite !filter_cons. destruct (P f) eqn:Hf.
  - rewrite decide_True by done. rewrite decide_False by done.
    simpl. by rewrite IH.
  - rewrite decide_False by done. rewrite decide_True by done.
    rewrite <- Permutation_middle. by rewrite IH.
Qed.

(** C7. The list a locator returns is its candidate list split in two
    buckets: first the stores the probe confirmed, then the others; the
    two buckets are sublists of the enumeration (same relative order) and
    together they are a permutation of it.  This holds for the ranking loop
    on any list and for the Firefox, Chrome and Edge locators. *)
Theorem ranking_is_stable_partition :
  forall h : Host,
    (forall (is_firefox : bool) (cookie_files : list string),
        exists ranked,
          outcome (rank h is_firefox cookie_files) = Ok ranked
          /\ stable_partition (confirmed h is_firefox) cookie_files ranked)
    /\ (exists ranked,
          outcome (get_firefox_cookie_files h) = Ok ranked
          /\ stable_partition (confirmed h true) (firefox_candidates h) ranked)
    /\ (exists ranked,
          outcome (get_chrome_cookie_files h) = Ok ranked
          /\ stable_partition (confirmed h false)
               (chromium_candidates h (chrome_base_paths h)) ranked)
    /\ (exists ranked,
          outcome (get_edge_cookie_files h) = Ok ranked
          /\ stable_partition (confirmed h false)
               (chromium_candidates h (edge_base_paths h)) ranked).
Proof.
  intros h.
  assert (Hrank : forall is_firefox cookie_files, exists ranked,
             outcome (rank h is_firefox cookie_files) = Ok ranked
             /\ stable_partition (confirmed h is_firefox) cookie_files ranked).
  { intros. eexists. split; [apply rank_outcome|].
    apply filter_stable_partition. }
  split; [exact Hrank|]. split; [|split; apply Hrank].
  unfold get_firefox_cookie_files.
  destruct (firefox_candidates h) as [|f rest] eqn:Hc; [|apply Hrank].
  exists []. split; [done|]. apply (filter_stable_partition _ []).
Qed.

(** ** Schema-adaptive extractors *)

Lemma typed_row_sql_row (row : RawCookieRow) :
  typed_row (sql_row row) = Some row.
Proof. by destruct row. Qed.

Lemma typed_rows_sql_row (rows : list RawCookieRow) :
  typed_rows (map sql_row rows) = Some rows.
Proof.
  induction rows as [|row rest IH]; [done|].
  simpl map. cbn [typed_rows]. by rewrite typed_row_sql_row, IH.
Qed.

Lemma typed_row_Some (r : SqlRow) (row : RawCookieRow) :
  typed_row r = Some row -> r = sql_row row.
Proof.
  unfold typed_row. destruct r as [n v [host| | | |] p e s ho]; simpl; [|done..].
  by intros [= <-].
Qed.

Lemma typed_rows_Some (rows : list SqlRow) (trows : list RawCookieRow) :
  typed_rows rows = Some trows -> rows = map sql_row trows.
Proof.
  revert trows. induction rows as [|r rest IH]; intros trows; cbn [typed_rows].
  - by intros [= <-].
  - destruct (typed_row r) as [row|] eqn:Hr; [|done].
    destruct (typed_rows rest) as [rows'|] eqn:Hrest; [|done].
    intros [= <-]. simpl. f_equal; [by apply typed_row_Some | by apply IH].
Qed.

Lemma typed_rows_None_nonempty (rows : list SqlRow) :
  typed_rows rows = None -> rows <> [].
Proof. by destruct rows. Qed.

Lemma firefox_build_rows_spec (rows : list SqlRow) :
  firefox_build_rows rows =
    match typed_rows rows with
    | Some trows => Ok (firefox_rows trows)
    | None => Raised OtherException
    end.
Proof.
  induction rows as [|r rest IH]; [done|].
  cbn [firefox_build_rows typed_rows]. unfold firefox_build. rewrite IH.
  destruct (typed_row r); [|done]. by destruct (typed_rows rest).
Qed.

Lemma chrome_build_rows_spec (rows : list SqlRow) :
  chrome_build_rows rows =
    match typed_rows rows with
    | Some trows => Ok (chrome_rows trows)
    | None => Raised OtherException
    end.
Proof.
  induction rows as [|r rest IH]; [done|].
  cbn [chrome_build_rows typed_rows]. unfold chrome_build. rewrite IH.
  destruct (typed_row r) as [row|]; [|done].
  destruct (typed_rows rest); [|done]. simpl. by destruct (chrome_cookie row).
Qed.

Lemma firefox_loop_step (cookiefile : string) (conn : Database) (q : string)
    (rest : list string) :
  firefox_loop cookiefile conn (q :: rest) =
    match fetchall conn q with
    | Ok (row :: rows) =>
      match typed_rows (row :: rows) with
      | Some trows => ([Executed cookiefile q], Ok (Some (firefox_rows trows)))
      | None => ([Executed cookiefile q], Raised OtherException)
      end
    | Ok [] | Raised OperationalError =>
      (Executed cookiefile q :: trace (firefox_loop cookiefile conn rest),
       outcome (firefox_loop cookiefile conn rest))
    | Raised OtherException => ([Executed cookiefile q], Raised OtherException)
    end.
Proof.
  cbn [firefox_loop]. unfold execute_fetchall.
  destruct (fetchall conn q) as [[|row rows]|[|]];
    cbn -[firefox_build_rows typed_rows];
    rewrite ?firefox_build_rows_spec;
    try destruct (typed_rows (row :: rows));
    try destruct (firefox_loop cookiefile conn rest); reflexivity.
Qed.

Lemma chrome_loop_step (cookiefile : string) (conn : Database) (q : string)
    (rest : list string) :
  chrome_loop cookiefile conn (q :: rest) =
    match fetchall conn q with
    | Ok (row :: rows) =>
      match typed_rows (row :: rows) with
      | Some trows => ([Executed cookiefile q], Ok (Some (chrome_rows trows)))
      | None =>
        (Executed cookiefile q :: trace (chrome_loop cookiefile conn rest),
         outcome (chrome_loop cookiefile conn rest))
      end
    | Ok [] | Raised _ =>
      (Executed cookiefile q :: trace (chrome_loop cookiefile conn rest),
       outcome (chrome_loop cookiefile conn rest))
    end.
Proof.
  cbn [chrome_loop]. unfold execute_fetchall.
  destruct (fetchall conn q) as [[|row rows]|[|]];
    cbn -[chrome_build_rows typed_rows];
    rewrite ?chrome_build_rows_spec;
    try destruct (typed_rows (row :: rows));
    try destruct (chrome_loop cookiefile conn rest); reflexivity.
Qed.

Lemma fetched_rows_step (conn : Database) (q : string)
    (rows : list RawCookieRow) :
  fetchall conn q = Ok (map sql_row rows) -> rows <> [] ->
  exists r rest,
    fetchall conn q = Ok (r :: rest) /\ typed_rows (r :: rest) = Some rows.
Proof.
  intros Hq Hne. destruct rows as [|row rows]; [done|].
  exists (sql_row row), (map sql_row rows). split; [done|].
  apply (typed_rows_sql_row (row :: rows)).
Qed.

Lemma untyped_rows_step (conn : Database) (q : string) (rows : list SqlRow) :
  fetchall conn q = Ok rows -> typed_rows rows = None ->
  exists r rest,
    fetchall conn q = Ok (r :: rest) /\ typed_rows (r :: rest) = None.
Proof.
  intros Hq Hn. destruct rows as [|r rest]; [done|]. by exists r, rest.
Qed.

Lemma firefox_loop_first_rows (cookiefile : string) (conn : Database)
    (pre : list string) (q : string) (post : list string)
    (rows : list RawCookieRow) :
  Forall (skipped_firefox conn) pre ->
  fetchall conn q = Ok (map sql_row rows) -> rows <> [] ->
  firefox_loop cookiefile conn (pre ++ q :: post)
  = (Executed cookiefile <$> (pre ++ [q]), Ok (Some (firefox_rows rows))).
Proof.
  intros Hpre Hq Hrows.
  destruct (fetched_rows_step _ _ _ Hq Hrows) as (r & rest & Hf & Ht).
  induction Hpre as [|a pre Ha _ IH].
  - simpl app. by rewrite firefox_loop_step, Hf, Ht.
  - simpl app. rewrite firefox_loop_step, IH.
    destruct Ha as [-> | ->]; reflexivity.
Qed.

Lemma firefox_loop_first_without_host (cookiefile : string) (conn : Database)
    (pre : list string) (q : string) (post : list string)
    (rows : list SqlRow) :
  Forall (skipped_firefox conn) pre ->
  fetchall conn q = Ok rows -> typed_rows rows = None ->
  firefox_loop cookiefile conn (pre ++ q :: post)
  = (Executed cookiefile <$> (pre ++ [q]), Raised OtherException).
Proof.
  intros Hpre Hq Hrows.
  destruct (untyped_rows_step _ _ _ Hq Hrows) as (r & rest & Hf & Ht).
  induction Hpre as [|a pre Ha _ IH].
  - simpl app. by rewrite firefox_loop_step, Hf, Ht.
  - simpl app. rewrite firefox_loop_step, IH.
    destruct Ha as [-> | ->]; reflexivity.
Qed.

Lemma chrome_loop_passed_over (cookiefile : string) (conn : Database)
    (q : string) (rest : list string) :
  passed_over_chrome conn q ->
  chrome_loop cookiefile conn (q :: rest)
  = (Executed cookiefile q :: trace (chrome_loop cookiefile conn rest),
     outcome (chrome_loop cookiefile conn rest)).
Proof.
  intros Hq. rewrite chrome_loop_step.
  destruct Hq as [[[e ->] | ->] | (rows & Hf & Ht)]; [done..|].
  destruct (untyped_rows_step _ _ _ Hf Ht) as (r & rows' & -> & ->). done.
Qed.

Lemma chrome_loop_first_rows (cookiefile : string) (conn : Database)
    (pre : list string) (q : string) (post : list string)
    (rows : list RawCookieRow) :
  Forall (passed_over_chrome conn) pre ->
  fetchall conn q = Ok (map sql_row rows) -> rows <> [] ->
  chrome_loop cookiefile conn (pre ++ q :: post)
  = (Executed cookiefile <$> (pre ++ [q]), Ok (Some (chrome_rows rows))).
Proof.
  intros Hpre Hq Hrows.
  destruct (fetched_rows_step _ _ _ Hq Hrows) as (r & rest & Hf & Ht).
  induction Hpre as [|a pre Ha _ IH].
  - simpl app. by rewrite chrome_loop_step, Hf, Ht.
  - simpl app. by rewrite (chrome_loop_passed_over _ _ _ _ Ha), IH.
Qed.

Lemma skipped_passed_over (conn : Database) (pre : list string) :
  Forall (skipped_chrome conn) pre -> Forall (passed_over_chrome conn) pre.
Proof.
  intros Hpre. eapply Forall_impl; [exact Hpre|]. intros q Hq. by left.
Qed.

Lemma executed_cons (cookiefile q : string) (t : list Event) :
  executed (Executed cookiefile q :: t) = q :: executed t.
Proof. reflexivity. Qed.

Lemma typed_rows_clash (conn : Database) (q : string) (rows : list SqlRow)
    (trows : list RawCookieRow) :
  fetchall conn q = Ok rows -> typed_rows rows = None ->
  fetchall conn q = Ok (map sql_row trows) -> False.
Proof.
  intros Hq Hn Hq'. rewrite Hq in Hq'. injection Hq' as ->.
  by rewrite typed_rows_sql_row in Hn.
Qed.

Lemma typed_rows_agree (conn : Database) (q : string) (rows : list SqlRow)
    (trows trows' : list RawCookieRow) :
  fetchall conn q = Ok rows -> typed_rows rows = Some trows ->
  fetchall conn q = Ok (map sql_row trows') -> trows' = trows.
Proof.
  intros Hq Ht Hq'. rewrite Hq in Hq'. injection Hq' as ->.
  rewrite typed_rows_sql_row in Ht. congruence.
Qed.

Lemma firefox_loop_stops (cookiefile : string) (conn : Database)
    (queries : list string) :
  (forall ev, In ev (trace (firefox_loop cookiefile conn queries)) ->
              exists q, ev = Executed cookiefile q)
  /\ exists n,
       executed (trace (firefox_loop cookiefile conn queries)) = take n queries
       /\ (forall i q rows,
             i < n -> queries !! i = Some q ->
             fetchall conn q = Ok (map sql_row rows) -> rows <> [] ->
             n = S i
             /\ outcome (firefox_loop cookiefile conn queries)
                = Ok (Some (firefox_rows rows)))
       /\ (forall i q rows,
             i < n -> queries !! i = Some q ->
             fetchall conn q = Ok rows -> typed_rows rows = None ->
             n = S i
             /\ outcome (firefox_loop cookiefile conn queries)
                = Raised OtherException).
Proof.
  induction queries as [|a rest [IHev (n & Hn & IH & IH')]].
  - split; [intros ev []|]. exists 0. split; [done|]. split; intros; lia.
  - rewrite firefox_loop_step.
    destruct (fetchall conn a) as [[|row rows']|[|]] eqn:Ha;
      [| destruct (typed_rows (row :: rows')) as [trows|] eqn:Ht | |].
    + split; [intros ev [<-|Hev]; eauto|].
      exists (S n). cbn [trace outcome fst snd].
      rewrite executed_cons, Hn. split; [done|]. split.
      * intros [|i] q rows Hi Hq Hrows Hne; simpl in Hq.
        -- injection Hq as <-. rewrite Ha in Hrows. by destruct rows.
        -- destruct (IH i q rows) as [-> Hout]; [lia|done..].
      * intros [|i] q rows Hi Hq Hrows Hne; simpl in Hq.
        -- injection Hq as <-. rewrite Ha in Hrows. by injection Hrows as <-.
        -- destruct (IH' i q rows) as [-> Hout]; [lia|done..].
    + split; [intros ev [<-|[]]; eauto|].
      exists 1. split; [done|]. split.
      * intros [|i] q rows Hi Hq Hrows Hne; [|lia].
        injection Hq as <-. split; [done|]. cbn [outcome snd].
        by rewrite (typed_rows_agree _ _ _ _ _ Ha Ht Hrows).
      * intros [|i] q rows Hi Hq Hrows Hne; [|lia].
        injection Hq as <-. rewrite Ha in Hrows. injection Hrows as <-.
        congruence.
    + split; [intros ev [<-|[]]; eauto|].
      exists 1. split; [done|]. split.
      * intros [|i] q rows Hi Hq Hrows Hne; [|lia].
        injection Hq as <-. by destruct (typed_rows_clash _ _ _ _ Ha Ht Hrows).
      * intros [|i] q rows Hi Hq Hrows Hne; [|lia]. done.
    + split; [intros ev [<-|Hev]; eauto|].
      exists (S n). cbn [trace outcome fst snd].
      rewrite executed_cons, Hn. split; [done|]. split.
      * intros [|i] q rows Hi Hq Hrows Hne; simpl in Hq.
        -- injection Hq as <-. congruence.
        -- destruct (IH i q rows) as [-> Hout]; [lia|done..].
      * intros [|i] q rows Hi Hq Hrows Hne; simpl in Hq.
        -- injection Hq as <-. congruence.
        -- destruct (IH' i q rows) as [-> Hout]; [lia|done..].
    + split; [intros ev [<-|[]]; eauto|].
      exists 1. split; [done|]. split.
      * intros [|i] q rows Hi Hq Hrows Hne; [|lia].
        injection Hq as <-. congruence.
      * intros [|i] q rows Hi Hq Hrows Hne; [|lia].
        injection Hq as <-. congruence.
Qed.

Lemma chrome_loop_stops (cookiefile : string) (conn : Database)
    (queries : list string) :
  (forall ev, In ev (trace (chrome_loop cookiefile conn queries)) ->
              exists q, ev = Executed cookiefile q)
  /\ (exists r, outcome (chrome_loop cookiefile conn queries) = Ok r)
  /\ stops_at_first_rows conn queries chrome_rows
       (chrome_loop cookiefile conn queries).
Proof.
  induction queries as [|a rest (IHev & IHok & n & Hn & IH)].
  - split; [intros ev []|]. split; [by eexists|].
    exists 0. split; [done|]. intros i q rows Hi. lia.
  - rewrite chrome_loop_step.
    assert (Hnext :
      (forall ev,
          In ev (trace (Executed cookiefile a
                          :: trace (chrome_loop cookiefile conn rest),
                        outcome (chrome_loop cookiefile conn rest))) ->
          exists q, ev = Executed cookiefile q)
      /\ (exists r,
             outcome (Executed cookiefile a
                        :: trace (chrome_loop cookiefile conn rest),
                      outcome (chrome_loop cookiefile conn rest)) = Ok r)
      /\ exists m,
           executed (Executed cookiefile a
                       :: trace (chrome_loop cookiefile conn rest))
           = take m (a :: rest)
           /\ forall i q rows,
               S i < m -> rest !! i = Some q ->
               fetchall conn q = Ok (map sql_row rows) -> rows <> [] ->
               m = S (S i)
               /\ outcome (chrome_loop cookiefile conn rest)
                  = Ok (Some (chrome_rows rows))).
    { split; [intros ev [<-|Hev]; eauto|]. split; [done|].
      exists (S n). rewrite executed_cons, Hn. split; [done|].
      intros i q rows Hi Hq Hrows Hne.
      destruct (IH i q rows) as [-> Hout]; [lia|done..]. }
    destruct Hnext as (Hev & Hok & m & Hm & Hrest).
    destruct (fetchall conn a) as [[|row rows']|e] eqn:Ha;
      [| destruct (typed_rows (row :: rows')) as [trows|] eqn:Ht |].
    + split; [done|]. split; [done|]. exists m. split; [done|].
      intros [|i] q rows Hi Hq Hrows Hne; simpl in Hq.
      * injection Hq as <-. rewrite Ha in Hrows. by destruct rows.
      * by apply (Hrest i q rows).
    + split; [intros ev [<-|[]]; eauto|]. split; [by eexists|].
      exists 1. split; [done|].
      intros [|i] q rows Hi Hq Hrows Hne; [|lia].
      injection Hq as <-. split; [done|]. cbn [outcome snd].
      by rewrite (typed_rows_agree _ _ _ _ _ Ha Ht Hrows).
    + split; [done|]. split; [done|]. exists m. split; [done|].
      intros [|i] q rows Hi Hq Hrows Hne; simpl in Hq.
      * injection Hq as <-.
        by destruct (typed_rows_clash _ _ _ _ Ha Ht Hrows).
      * by apply (Hrest i q rows).
    + split; [done|]. split; [done|]. exists m. split; [done|].
      intros [|i] q rows Hi Hq Hrows Hne; simpl in Hq.
      * injection Hq as <-. congruence.
      * by apply (Hrest i q rows).
Qed.

Lemma extract_firefox_opened (h : Host) (cookiefile : string) (conn : Database) :
  connect h cookiefile = Ok conn ->
  extract_cookies_from_firefox h cookiefile
  = try_except (firefox_loop cookiefile conn firefox_queries)
               (fun _ => print (WarnFirefox cookiefile) ;;; ret None).
Proof.
  intros Hconn. unfold extract_cookies_from_firefox, lift.
  rewrite Hconn, bind_ok. simpl app. by rewrite <- eff_eta.
Qed.

Lemma extract_chrome_opened (h : Host) (cookiefile : string) (conn : Database) :
  connect h cookiefile = Ok conn ->
  extract_cookies_from_chrome_edge h cookiefile
  = try_except (chrome_loop cookiefile conn chrome_queries)
               (fun _ => print (WarnChrome cookiefile) ;;; ret None).
Proof.
  intros Hconn. unfold extract_cookies_from_chrome_edge, lift.
  rewrite Hconn, bind_ok. simpl app. by rewrite <- eff_eta.
Qed.

Lemma stops_try_except (conn : Database) (queries : list string)
    (build : list RawCookieRow -> list Cookie)
    (m : Eff (option (list Cookie)))
    (handler : PyExc -> Eff (option (list Cookie))) :
  (forall e, executed (trace (handler e)) = []) ->
  stops_at_first_rows conn queries build m ->
  stops_at_first_rows conn queries build (try_except m handler).
Proof.
  intros Hh (n & Hn & Hfirst). exists n.
  destruct m as [t [a|e]]; simpl in *; [by split|].
  specialize (Hh e). destruct (handler e) as [t' r]. simpl in *.
  rewrite executed_app, Hh, app_nil_r. split; [done|].
  intros i q rows Hi Hq Hrows Hne.
  destruct (Hfirst i q rows Hi Hq Hrows Hne) as [_ ?]. discriminate.
Qed.

Lemma prints_executed (cookiefile : string) (queries : list string) :
  prints (Executed cookiefile <$> queries) = [].
Proof. induction queries as [|q rest IH]; [done | exact IH]. Qed.

Lemma prints_only_executed (cookiefile : string) (t : list Event) :
  (forall ev, In ev t -> exists q, ev = Executed cookiefile q) ->
  prints t = [].
Proof.
  induction t as [|ev t IH]; [done|]. intros Hall.
  destruct (Hall ev) as [q ->]; [by left|].
  apply IH. intros ev' Hev'. apply Hall. by right.
Qed.

Lemma firefox_stops (h : Host) (cookiefile : string) (conn : Database) :
  connect h cookiefile = Ok conn ->
  stops_at_first_rows conn firefox_queries firefox_rows
    (extract_cookies_from_firefox h cookiefile).
Proof.
  intros Hconn. rewrite (extract_firefox_opened _ _ _ Hconn).
  apply stops_try_except; [done|].
  destruct (firefox_loop_stops cookiefile conn firefox_queries)
    as (_ & n & Hn & Hrows & _).
  by exists n.
Qed.

Lemma firefox_ends_without_host (h : Host) (cookiefile : string)
    (conn : Database) :
  connect h cookiefile = Ok conn ->
  ends_at_rows_without_host conn firefox_queries (WarnFirefox cookiefile)
    (extract_cookies_from_firefox h cookiefile).
Proof.
  intros Hconn. rewrite (extract_firefox_opened _ _ _ Hconn).
  destruct (firefox_loop_stops cookiefile conn firefox_queries)
    as (Hev & n & Hn & _ & Hends).
  apply prints_only_executed in Hev.
  exists n.
  destruct (firefox_loop cookiefile conn firefox_queries) as [t [a|e]];
    simpl in *.
  - split; [done|]. intros i q rows Hi Hq Hrows Hnone.
    by destruct (Hends i q rows Hi Hq Hrows Hnone) as [_ ?].
  - rewrite executed_app, prints_app, Hev, app_nil_r. split; [done|].
    intros i q rows Hi Hq Hrows Hnone.
    by destruct (Hends i q rows Hi Hq Hrows Hnone) as [-> _].
Qed.

Lemma first_with_rows_firefox (h : Host) (cookiefile : string)
    (conn : Database) (pre : list string) (q : string)
    (rows : list RawCookieRow) :
  connect h cookiefile = Ok conn ->
  first_with_rows (skipped_firefox conn) conn firefox_queries pre q rows ->
  extract_cookies_from_firefox h cookiefile
  = (Executed cookiefile <$> (pre ++ [q]), Ok (Some (firefox_rows rows))).
Proof.
  intros Hconn ([post Hqs] & Hpre & Hq & Hne).
  rewrite (extract_firefox_opened _ _ _ Hconn), Hqs.
  by rewrite (firefox_loop_first_rows _ _ _ _ _ rows).
Qed.

Lemma first_without_host_firefox (h : Host) (cookiefile : string)
    (conn : Database) (pre : list string) (q : string) :
  connect h cookiefile = Ok conn ->
  first_without_host (skipped_firefox conn) conn firefox_queries pre q ->
  extract_cookies_from_firefox h cookiefile
  = ((Executed cookiefile <$> (pre ++ [q]))
       ++ [Printed (WarnFirefox cookiefile)],
     Ok None).
Proof.
  intros Hconn ([post Hqs] & Hpre & rows & Hq & Hnone).
  rewrite (extract_firefox_opened _ _ _ Hconn), Hqs.
  by rewrite (firefox_loop_first_without_host _ _ _ _ _ rows).
Qed.

Lemma first_with_rows_passed_over (h : Host) (cookiefile : string)
    (conn : Database) (pre : list string) (q : string)
    (rows : list RawCookieRow) :
  connect h cookiefile = Ok conn ->
  first_with_rows (passed_over_chrome conn) conn chrome_queries pre q rows ->
  extract_cookies_from_chrome_edge h cookiefile
  = (Executed cookiefile <$> (pre ++ [q]), Ok (Some (chrome_rows rows))).
Proof.
  intros Hconn ([post Hqs] & Hpre & Hq & Hne).
  rewrite (extract_chrome_opened _ _ _ Hconn), Hqs.
  by rewrite (chrome_loop_first_rows _ _ _ _ _ rows).
Qed.

Lemma first_with_rows_chrome (h : Host) (cookiefile : string)
    (conn : Database) (pre : list string) (q : string)
    (rows : list RawCookieRow) :
  connect h cookiefile = Ok conn ->
  first_with_rows (skipped_chrome conn) conn chrome_queries pre q rows ->
  extract_cookies_from_chrome_edge h cookiefile
  = (Executed cookiefile <$> (pre ++ [q]), Ok (Some (chrome_rows rows))).
Proof.
  intros Hconn (Hqs & Hpre & Hq & Hne).
  apply (first_with_rows_passed_over _ _ conn); [done|].
  split; [done|]. split; [by apply skipped_passed_over | done].
Qed.

(** C2, as the code has it. On an opened store each extractor sends its
    queries in the order of its list (Firefox: grouped-domain column,
    explicit host list, host substring; Chrome/Edge: substring, dotted
    substring, exact host): the statements sent are a prefix of the list.
    A query that was sent and answered at least one row, every row with a
    text host, is the last one sent and its rows make the whole result.
    A row whose host is not text (NULL, a BLOB, a number) makes the
    building raise: the Chrome/Edge extractor passes such a query over as
    it does a failed one and goes on to the next query; the Firefox
    extractor stops there, prints its warning and gives nothing.  When the
    queries before a query are passed over, that query is reached and
    exactly the queries up to it are sent. *)
Theorem query_fallback_short_circuits :
  forall (h : Host) (cookiefile : string) (conn : Database),
    connect h cookiefile = Ok conn ->
    firefox_queries = [fx_grouped_domain; fx_host_list; fx_host_substring]
    /\ chrome_queries = [cr_substring; cr_dotted_substring; cr_exact_host]
    /\ stops_at_first_rows conn firefox_queries firefox_rows
         (extract_cookies_from_firefox h cookiefile)
    /\ stops_at_first_rows conn chrome_queries chrome_rows
         (extract_cookies_from_chrome_edge h cookiefile)
    /\ ends_at_rows_without_host conn firefox_queries (WarnFirefox cookiefile)
         (extract_cookies_from_firefox h cookiefile)
    /\ (forall pre q rows,
          first_with_rows (skipped_firefox conn) conn firefox_queries pre q rows ->
          extract_cookies_from_firefox h cookiefile
          = (Executed cookiefile <$> (pre ++ [q]),
             Ok (Some (firefox_rows rows))))
    /\ (forall pre q rows,
          first_with_rows (passed_over_chrome conn) conn chrome_queries
            pre q rows ->
          extract_cookies_from_chrome_edge h cookiefile
          = (Executed cookiefile <$> (pre ++ [q]),
             Ok (Some (chrome_rows rows))))
    /\ (forall pre q,
          first_without_host (skipped_firefox conn) conn firefox_queries pre q ->
          extract_cookies_from_firefox h cookiefile
          = ((Executed cookiefile <$> (pre ++ [q]))
               ++ [Printed (WarnFirefox cookiefile)],
             Ok None)).
Proof.
  intros h cookiefile conn Hconn.
  split; [reflexivity|]. split; [reflexivity|].
  split; [by apply firefox_stops|].
  split; [|split; [by apply firefox_ends_without_host|split; [|split]]].
  - rewrite (extract_chrome_opened _ _ _ Hconn).
    apply stops_try_except; [done|]. apply chrome_loop_stops.
  - intros pre q rows. by apply first_with_rows_firefox.
  - intros pre q rows. by apply first_with_rows_passed_over.
  - intros pre q. by apply first_without_host_firefox.
Qed.

Lemma query_fallback_short_circuits_witness :
  extract_cookies_from_chrome_edge host_blob_host chrome_store_path
  = (Executed chrome_store_path
       <$> ([cr_substring; cr_dotted_substring] ++ [cr_exact_host]),
     Ok (Some (chrome_rows [row_li_at]))).
Proof.
  pose proof (query_fallback_short_circuits host_blob_host chrome_store_path
                blob_host_db eq_refl) as (_ & _ & _ & _ & _ & _ & H & _).
  apply (H [cr_substring; cr_dotted_substring] cr_exact_host [row_li_at]).
  split; [by exists []|].
  split; [|split; [reflexivity | discriminate]].
  repeat (constructor;
          [right; by exists [row_blob_host; sql_row row_li_at]|]).
  constructor.
Defined.

(** C2 as stated fails on rows whose host is not text.  A Chrome store
    holds a cookie whose host is a BLOB and a cookie on
    [www.linkedin.com]: the first query executes without error and
    answers both rows, yet the second and the third query are sent and
    the result is made of the one row of the third.  A Firefox store
    holds a cookie whose host is NULL and a cookie on [.linkedin.com]:
    the first query executes without error and answers both rows, yet the
    store gives nothing. *)
Lemma rows_without_text_host_do_not_win :
  fetchall blob_host_db cr_substring = Ok [row_blob_host; sql_row row_li_at]
  /\ fetchall blob_host_db cr_exact_host = Ok [sql_row row_li_at]
  /\ extract_cookies_from_chrome_edge host_blob_host chrome_store_path
     = ([Executed chrome_store_path cr_substring;
         Executed chrome_store_path cr_dotted_substring;
         Executed chrome_store_path cr_exact_host],
        Ok (Some [ {| name := "li_at"; value := VText "AQEDAT";
                      domain := ".www.linkedin.com"; path := "/";
                      expiry := None; secure := false;
                      httpOnly := false |} ]))
  /\ fetchall null_host_db fx_grouped_domain
     = Ok [row_null_host; sql_row row_lang]
  /\ extract_cookies_from_firefox host_null_host firefox_store_path
     = ([Executed firefox_store_path fx_grouped_domain;
         Printed (WarnFirefox firefox_store_path)],
        Ok None).
Proof. repeat split. Qed.

(** ** Values that do not decode *)

Lemma chrome_rows_omap (rows : list RawCookieRow) :
  chrome_rows rows = omap chrome_cookie rows.
Proof.
  induction rows as [|row rest IH]; [done|].
  simpl. destruct (chrome_cookie row); by rewrite IH.
Qed.

Lemma chrome_cookie_None (row : RawCookieRow) :
  chrome_cookie row = None <-> undecodable (row_value row).
Proof.
  unfold chrome_cookie, chrome_value, undecodable.
  destruct (row_value row) as [s|bs].
  - split; [discriminate | intros (bs & Hbs & _); discriminate].
  - destruct (Py.decode_utf8 bs) as [s|] eqn:Hd.
    + split; [discriminate | intros (bs' & [= <-] & Hn); congruence].
    + split; [eauto | done].
Qed.

Lemma chrome_cookie_value (row : RawCookieRow) (c : Cookie) :
  chrome_cookie row = Some c ->
  exists s, readable_as (row_value row) s /\ value c = VText s.
Proof.
  intros (_ & Hv & _)%chrome_cookie_fields. unfold chrome_value in Hv.
  unfold readable_as.
  destruct (row_value row) as [s|bs];
    [|destruct (Py.decode_utf8 bs) as [s|] eqn:Hd]; [| |done];
    injection Hv as <-; exists s; (split; [|done]).
  - by left.
  - right. by exists bs.
Qed.

(** C5 fails for the Firefox family.  A Firefox store answers its first
    query with two rows, the first with a value of bytes that are not
    UTF-8.  The Chrome/Edge extractor, given the same rows, drops the
    first and returns the cookie of the second.  The Firefox extractor
    drops nothing: it returns a cookie for each row, the first with the
    bytes as its value.  The run over that store then fails as a whole:
    [json.dump] raises on the bytes after the output file was opened, the
    run returns [None] and the cookie of the readable row is lost with
    it. *)
Theorem firefox_bytes_value_spoils_run :
  undecodable (row_value row_encrypted)
  /\ fetchall firefox_db fx_grouped_domain
     = Ok [sql_row row_encrypted; sql_row row_lang]
  /\ fetchall chrome_encrypted_db cr_substring
     = Ok [sql_row row_encrypted; sql_row row_lang]
  /\ extract_cookies_from_chrome_edge host_chrome_encrypted chrome_store_path
     = ([Executed chrome_store_path cr_substring],
        Ok (Some [firefox_cookie row_lang]))
  /\ extract_cookies_from_firefox host_firefox firefox_store_path
     = ([Executed firefox_store_path fx_grouped_domain],
        Ok (Some [firefox_cookie row_encrypted; firefox_cookie row_lang]))
  /\ value (firefox_cookie row_encrypted) = VBytes [x76; x31; x30; xff; xfe]
  /\ extract_linkedin_cookies host_firefox (Some "Firefox") "out.json" true
     = ([Executed firefox_store_path probe_baseDomain;
         Executed firefox_store_path fx_grouped_domain;
         OpenedForWriting "out.json"],
        Ok None).
Proof.
  split; [eexists; split; reflexivity|].
  repeat split; vm_compute; reflexivity.
Qed.

(** ** Authentication verdict *)

Lemma found_auth_cookies_spec (unique_cookies : list Cookie) :
  found_auth_cookies unique_cookies = true <->
  exists c, c ∈ unique_cookies /\ In (name c) auth_cookie_names.
Proof.
  unfold found_auth_cookies. rewrite existsb_exists. split.
  - intros (c & Hc & (x & Hx & Heq%String.eqb_eq)%existsb_exists).
    exists c. split; [by apply list_elem_of_In | congruence].
  - intros (c & Hc & Hn). exists c. split; [by apply list_elem_of_In|].
    apply existsb_exists. exists (name c). split; [done | apply String.eqb_refl].
Qed.

Lemma finalize_warns (h : Host) (all_cookies : list Cookie)
    (output_file : string) :
  all_cookies <> [] ->
  (In (Printed MsgNoAuthCookies)
      (trace (finalize h all_cookies output_file false))
   <-> found_auth_cookies (remove_duplicates all_cookies) = false).
Proof.
  intros Hne. unfold finalize. destruct all_cookies as [|c l]; [done|].
  generalize (remove_duplicates (c :: l)). intros u. unfold save, lift.
  destruct (found_auth_cookies u); destruct (open_w h output_file) as [[]|e];
    destruct (json_serializable u);
    destruct (write_w h output_file) as [[]|e']; simpl.
  all: split; [|by auto].
  all: intros H; repeat (destruct H as [H|H]; [discriminate|]); done.
Qed.

(** C1, as the code has it. The verdict on the deduplicated cookies is
    true exactly when one of them is named li_at, JSESSIONID, bcookie or
    bscookie; so it is false when all of them are named lang and true as
    soon as one is named bscookie; and a run that is not quiet prints the
    no-authentication-cookie warning exactly when the verdict is false. *)
Theorem auth_verdict_by_cookie_name :
  forall (h : Host) (all_cookies : list Cookie) (output_file : string),
    (found_auth_cookies (remove_duplicates all_cookies) = true <->
     exists c, c ∈ remove_duplicates all_cookies
               /\ In (name c) ["li_at"; "JSESSIONID"; "bcookie"; "bscookie"])
    /\ ((forall c, c ∈ remove_duplicates all_cookies -> name c = "lang") ->
        found_auth_cookies (remove_duplicates all_cookies) = false)
    /\ ((exists c, c ∈ remove_duplicates all_cookies /\ name c = "bscookie") ->
        found_auth_cookies (remove_duplicates all_cookies) = true)
    /\ (all_cookies <> [] ->
        (In (Printed MsgNoAuthCookies)
            (trace (finalize h all_cookies output_file false))
         <-> found_auth_cookies (remove_duplicates all_cookies) = false)).
Proof.
  intros h all_cookies output_file.
  split; [apply found_auth_cookies_spec|]. split; [|split].
  - intros Hlang. apply not_true_is_false.
    intros (c & Hc & Hn)%found_auth_cookies_spec.
    rewrite (Hlang c Hc) in Hn. simpl in Hn.
    repeat (destruct Hn as [Hn|Hn]; [discriminate|]). done.
  - intros (c & Hc & Hn). apply found_auth_cookies_spec.
    exists c. split; [done|]. rewrite Hn. simpl. tauto.
  - apply finalize_warns.
Qed.

Lemma auth_verdict_by_cookie_name_witness :
  found_auth_cookies (remove_duplicates [firefox_cookie row_lang]) = false.
Proof.
  pose proof (auth_verdict_by_cookie_name host_empty [firefox_cookie row_lang]
                "linkedin_cookies.json") as (_ & Hlang & _).
  apply Hlang. intros c Hc. vm_compute in Hc.
  apply list_elem_of_singleton in Hc. by subst c.
Defined.

(** C1 as stated fails: a run whose deduplicated cookies are named lang and
    bscookie, and nothing else, has a true verdict. *)
Lemma lang_and_bscookie_suffice :
  extract_linkedin_cookies host_chrome None "linkedin_cookies.json" true
  = ([Executed chrome_store_path probe_host_key;
      Executed chrome_store_path cr_substring;
      Executed chrome_store_path cr_dotted_substring;
      OpenedForWriting "linkedin_cookies.json";
      Dumped "linkedin_cookies.json"
        [firefox_cookie row_lang; firefox_cookie row_bscookie]],
     Ok (Some "linkedin_cookies.json"))
  /\ remove_duplicates [firefox_cookie row_lang; firefox_cookie row_bscookie]
     = [firefox_cookie row_lang; firefox_cookie row_bscookie]
  /\ name (firefox_cookie row_lang) = "lang"
  /\ name (firefox_cookie row_bscookie) = "bscookie"
  /\ found_auth_cookies
       (remove_duplicates [firefox_cookie row_lang; firefox_cookie row_bscookie])
     = true.
Proof. repeat split; vm_compute; reflexivity. Qed.

(** ** A host without stores *)

Lemma missing_base_directory (h : Host) (base_paths : list string) :
  Forall (fun b => exists_ h (expanduser h b) = false) base_paths ->
  chromium_candidates h base_paths = [].
Proof.
  unfold chromium_candidates. induction 1 as [|b rest Hb _ IH]; [done|].
  simpl. unfold profile_candidates at 1. by rewrite Hb, IH.
Qed.

Lemma no_stores_locators (h : Host) :
  no_stores h ->
  get_firefox_cookie_files h = ([], Ok [])
  /\ get_chrome_cookie_files h = ([], Ok [])
  /\ get_edge_cookie_files h = ([], Ok []).
Proof.
  intros (Hf & Hc & He).
  unfold get_firefox_cookie_files, get_chrome_cookie_files,
    get_edge_cookie_files.
  rewrite Hf, Hc, He. done.
Qed.

(** C9. On a host where the locators find no candidate store, whatever the
    browser asked for, the run returns [None]; it opens no output file and
    dumps nothing, sends no statement to any store, and unless quiet says
    that no cookie file was found.  Each locator returns the empty list
    without raising, and a Chrome/Edge base directory that does not exist
    contributes no candidate. *)
Theorem no_stores_no_artifact :
  forall (h : Host) (browser : option string) (output_file : string)
         (quiet : bool),
    no_stores h ->
    outcome (extract_linkedin_cookies h browser output_file quiet) = Ok None
    /\ Forall (fun ev => touches_file ev = false)
         (trace (extract_linkedin_cookies h browser output_file quiet))
    /\ executed (trace (extract_linkedin_cookies h browser output_file quiet))
       = []
    /\ (quiet = false ->
        In (Printed MsgNoCookieFiles)
           (trace (extract_linkedin_cookies h browser output_file quiet)))
    /\ get_firefox_cookie_files h = ([], Ok [])
    /\ get_chrome_cookie_files h = ([], Ok [])
    /\ get_edge_cookie_files h = ([], Ok [])
    /\ (forall base_paths,
          Forall (fun b => exists_ h (expanduser h b) = false) base_paths ->
          chromium_candidates h base_paths = []).
Proof.
  intros h browser output_file quiet Hno.
  destruct (no_stores_locators h Hno) as (Hf & Hc & He).
  unfold extract_linkedin_cookies, select_cookie_files.
  rewrite Hf, Hc, He.
  destruct quiet, (browser_is browser "firefox"),
    (browser_is browser "chrome"), (browser_is browser "edge"); simpl.
  all: split; [done|]; split; [repeat constructor|]; split; [done|].
  all: split; [try discriminate; intros _; simpl; tauto|].
  all: repeat split; try done; apply missing_base_directory.
Qed.

Lemma no_stores_no_artifact_witness :
  no_stores host_empty
  /\ extract_linkedin_cookies host_empty None "linkedin_cookies.json" false
     = ([Printed MsgExtracting; Printed MsgAutoDetect;
         Printed MsgNoCookieFiles; Printed MsgPleaseLogIn],
        Ok None)
  /\ outcome (extract_linkedin_cookies host_empty (Some "chrome") "out.json" true)
     = Ok None.
Proof.
  assert (Hno : no_stores host_empty) by (repeat split; reflexivity).
  split; [exact Hno|]. split; [reflexivity|].
  apply (no_stores_no_artifact host_empty (Some "chrome") "out.json" true Hno).
Defined.

(** ** The model at work *)

Example decode_two_byte_sequence :
  Py.decode_utf8 [x61; xc3; xa9]
  = Some (string_of_list_byte [x61; xc3; xa9]).
Proof. reflexivity. Qed.

Example decode_rejects :
  Py.decode_utf8 [x76; x31; x30; xff; xfe] = None   (* stray 0xFF *)
  /\ Py.decode_utf8 [xc0; x80] = None               (* overlong *)
  /\ Py.decode_utf8 [xed; xa0; x80] = None          (* surrogate *)
  /\ Py.decode_utf8 [xf4; x90; x80; x80] = None     (* above U+10FFFF *)
  /\ Py.decode_utf8 [xe2; x82] = None.              (* truncated *)
Proof. repeat split. Qed.

(** A store with the older schema: the first query finds no column, the
    second no row, the third answers. *)
Example legacy_schema_falls_back :
  extract_cookies_from_firefox host_legacy_firefox firefox_store_path
  = ([Executed firefox_store_path fx_grouped_domain;
      Executed firefox_store_path fx_host_list;
      Executed firefox_store_path fx_host_substring],
     Ok (Some [ {| name := "li_at"; value := VText "AQEDAT";
                   domain := ".www.linkedin.com"; path := "/";
                   expiry := None; secure := false; httpOnly := false |} ])).
Proof. reflexivity. Qed.

(** The probe of that store falls back to the host count. *)
Example legacy_schema_probe :
  has_linkedin_cookies host_legacy_firefox firefox_store_path true
  = ([Executed firefox_store_path probe_baseDomain;
      Executed firefox_store_path probe_host],
     Ok true).
Proof. reflexivity. Qed.

(** A store that cannot be opened: the probe says no and stays silent, the
    extractor warns and gives nothing. *)
Example unopenable_store :
  has_linkedin_cookies host_empty chrome_store_path false = ([], Ok false)
  /\ extract_cookies_from_chrome_edge host_empty chrome_store_path
     = ([Printed (WarnChrome chrome_store_path)], Ok None).
Proof. split; reflexivity. Qed.

(** * Further properties *)

(** ** The probe, exactly *)

(** X1. The probe answers true exactly when the store opens and a count
    comes back positive: for Firefox the count on [baseDomain], or the
    count on [host] when the first one raised [OperationalError]; for
    Chrome/Edge the count on [host_key].  A first Firefox count of zero is
    final: the host count is not consulted. *)
Theorem probe_true_iff :
  forall (h : Host) (cookiefile : string) (is_firefox : bool),
    outcome (has_linkedin_cookies h cookiefile is_firefox) = Ok true
    <-> exists conn, connect h cookiefile = Ok conn /\ probe_finds conn is_firefox.
Proof.
  intros h cookiefile is_firefox.
  unfold has_linkedin_cookies, probe_body, execute_fetchone, probe_finds,
    positive_count, counted.
  destruct is_firefox; destruct (connect h cookiefile) as [conn|e0]; simpl.
  - destruct (fetchone conn probe_baseDomain) as [r1|[|]] eqn:E1; simpl;
      [|destruct (fetchone conn probe_host) as [r2|e2] eqn:E2; simpl|].
    + split.
      * intros [= Hpos]. destruct r1 as [n|]; [|done].
        exists conn. split; [done|]. left. exists n.
        split; [done | by apply Z.ltb_lt].
      * intros (c & [= <-] & [(n & Hn & Hpos)|[Hn _]]); [|congruence].
        rewrite E1 in Hn. injection Hn as ->. f_equal. by apply Z.ltb_lt.
    + split.
      * intros [= Hpos]. destruct r2 as [n|]; [|done].
        exists conn. split; [done|]. right. split; [done|]. exists n.
        split; [done | by apply Z.ltb_lt].
      * intros (c & [= <-] & [(n & Hn & _)|[_ (n & Hn & Hpos)]]);
          [congruence|].
        rewrite E2 in Hn. injection Hn as ->. f_equal. by apply Z.ltb_lt.
    + split; [done|].
      intros (c & [= <-] & [(n & Hn & _)|[_ (n & Hn & _)]]); congruence.
    + split; [done|].
      intros (c & [= <-] & [(n & Hn & _)|[Hn _]]); congruence.
  - split; [done | intros (c & Hc & _); done].
  - destruct (fetchone conn probe_host_key) as [r|e] eqn:E; simpl.
    + split.
      * intros [= Hpos]. destruct r as [n|]; [|done].
        exists conn. split; [done|]. exists n.
        split; [done | by apply Z.ltb_lt].
      * intros (c & [= <-] & n & Hn & Hpos).
        rewrite E in Hn. injection Hn as ->. f_equal. by apply Z.ltb_lt.
    + split; [done|]. intros (c & [= <-] & n & Hn & _). congruence.
  - split; [done | intros (c & Hc & _); done].
Qed.

(** ** What an extractor returns *)

Lemma typed_rows_cons (conn : Database) (q : string) (r : SqlRow)
    (rest : list SqlRow) (trows : list RawCookieRow) :
  fetchall conn q = Ok (r :: rest) -> typed_rows (r :: rest) = Some trows ->
  fetchall conn q = Ok (map sql_row trows) /\ trows <> [].
Proof.
  intros Hq Ht. apply typed_rows_Some in Ht. rewrite Hq, Ht.
  split; [done|]. by destruct trows.
Qed.

Lemma firefox_loop_cases (cookiefile : string) (conn : Database)
    (queries : list string) :
  match outcome (firefox_loop cookiefile conn queries) with
  | Ok (Some cookies) =>
    exists q rows, In q queries /\ fetchall conn q = Ok (map sql_row rows)
                   /\ rows <> [] /\ cookies = firefox_rows rows
  | Ok None =>
    Forall (skipped_firefox conn) queries
    /\ trace (firefox_loop cookiefile conn queries)
       = Executed cookiefile <$> queries
  | Raised e =>
    exists pre q post,
      queries = pre ++ q :: post
      /\ Forall (skipped_firefox conn) pre
      /\ (fetchall conn q = Raised OtherException
          \/ exists rows, fetchall conn q = Ok rows /\ typed_rows rows = None)
      /\ trace (firefox_loop cookiefile conn queries)
         = Executed cookiefile <$> (pre ++ [q])
  end.
Proof.
  induction queries as [|a rest IH]; [by split|].
  rewrite firefox_loop_step.
  destruct (fetchall conn a) as [[|row rows]|[|]] eqn:Ha;
    [| destruct (typed_rows (row :: rows)) as [trows|] eqn:Ht | |];
    cbn [outcome trace fst snd].
  - destruct (outcome (firefox_loop cookiefile conn rest)) as [[cs|]|e].
    + destruct IH as (q & rows & Hq & ?). exists q, rows. split; [by right | done].
    + destruct IH as [Hall Ht]. split; [constructor; [by right | done]|].
      by rewrite Ht.
    + destruct IH as (pre & q & post & -> & Hpre & Hq & Ht).
      exists (a :: pre), q, post. split; [done|].
      split; [constructor; [by right | done]|]. split; [done|]. by rewrite Ht.
  - destruct (typed_rows_cons _ _ _ _ _ Ha Ht) as [Hq Hne].
    exists a, trows. split; [by left | done].
  - exists [], a, rest. split; [done|]. split; [constructor|].
    split; [right; by eexists | done].
  - destruct (outcome (firefox_loop cookiefile conn rest)) as [[cs|]|e].
    + destruct IH as (q & rows & Hq & ?). exists q, rows. split; [by right | done].
    + destruct IH as [Hall Ht]. split; [constructor; [by left | done]|].
      by rewrite Ht.
    + destruct IH as (pre & q & post & -> & Hpre & Hq & Ht).
      exists (a :: pre), q, post. split; [done|].
      split; [constructor; [by left | done]|]. split; [done|]. by rewrite Ht.
  - exists [], a, rest. split; [done|]. split; [constructor|].
    split; [by left | done].
Qed.

Lemma chrome_loop_cases (cookiefile : string) (conn : Database)
    (queries : list string) :
  match outcome (chrome_loop cookiefile conn queries) with
  | Ok (Some cookies) =>
    exists q rows, In q queries /\ fetchall conn q = Ok (map sql_row rows)
                   /\ rows <> [] /\ cookies = chrome_rows rows
  | Ok None =>
    Forall (passed_over_chrome conn) queries
    /\ trace (chrome_loop cookiefile conn queries)
       = Executed cookiefile <$> queries
  | Raised e => False
  end.
Proof.
  induction queries as [|a rest IH]; [by split|].
  rewrite chrome_loop_step.
  assert (Hnext : passed_over_chrome conn a ->
    match outcome (chrome_loop cookiefile conn rest) with
    | Ok (Some cookies) =>
      exists q rows, In q (a :: rest) /\ fetchall conn q = Ok (map sql_row rows)
                     /\ rows <> [] /\ cookies = chrome_rows rows
    | Ok None =>
      Forall (passed_over_chrome conn) (a :: rest)
      /\ Executed cookiefile a :: trace (chrome_loop cookiefile conn rest)
         = Executed cookiefile <$> a :: rest
    | Raised e => False
    end).
  { intros Hpass.
    destruct (outcome (chrome_loop cookiefile conn rest)) as [[cs|]|e]; [| |done].
    - destruct IH as (q & rows & Hq & ?). exists q, rows. split; [by right | done].
    - destruct IH as [Hall Ht]. split; [by constructor|]. by rewrite Ht. }
  destruct (fetchall conn a) as [[|row rows]|e] eqn:Ha;
    [| destruct (typed_rows (row :: rows)) as [trows|] eqn:Ht |];
    cbn [outcome trace fst snd].
  - apply Hnext. left. by right.
  - destruct (typed_rows_cons _ _ _ _ _ Ha Ht) as [Hq Hne].
    exists a, trows. split; [by left | done].
  - apply Hnext. right. by eexists.
  - apply Hnext. left. left. by eexists.
Qed.

Lemma outcome_try_except {A} (m : Eff A) (handler : PyExc -> Eff A) :
  outcome (try_except m handler) =
    match outcome m with
    | Ok a => Ok a
    | Raised e => outcome (handler e)
    end.
Proof. destruct m as [t [a|e]]; simpl; [|destruct (handler e)]; reflexivity. Qed.

Lemma trace_try_except {A} (m : Eff A) (handler : PyExc -> Eff A) :
  trace (try_except m handler) =
    trace m ++ match outcome m with
               | Ok _ => []
               | Raised e => trace (handler e)
               end.
Proof.
  destruct m as [t [a|e]]; simpl; [by rewrite app_nil_r|].
  destruct (handler e); reflexivity.
Qed.

Lemma extractor_unopenable (firefox : bool) (h : Host) (cookiefile : string)
    (e : PyExc) :
  connect h cookiefile = Raised e ->
  extractor firefox h cookiefile
  = ([Printed (warning_of firefox cookiefile)], Ok None).
Proof.
  intros He. destruct firefox; simpl;
    unfold extract_cookies_from_firefox, extract_cookies_from_chrome_edge, lift;
    by rewrite He.
Qed.

Lemma extractor_sound (firefox : bool) (h : Host) (cookiefile : string)
    (cookies : list Cookie) :
  outcome (extractor firefox h cookiefile) = Ok (Some cookies) ->
  exists conn q rows,
    connect h cookiefile = Ok conn
    /\ In q (queries_of firefox)
    /\ fetchall conn q = Ok (map sql_row rows)
    /\ rows <> []
    /\ cookies = cookies_of_rows firefox rows.
Proof.
  destruct (connect h cookiefile) as [conn|e] eqn:Hconn;
    [|by rewrite (extractor_unopenable _ _ _ e Hconn)].
  destruct firefox; simpl.
  - rewrite (extract_firefox_opened _ _ _ Hconn), outcome_try_except.
    pose proof (firefox_loop_cases cookiefile conn firefox_queries) as Hc.
    destruct (outcome (firefox_loop cookiefile conn firefox_queries))
      as [[cs|]|e]; [|done..].
    intros [= <-]. destruct Hc as (q & rows & ?). by exists conn, q, rows.
  - rewrite (extract_chrome_opened _ _ _ Hconn), outcome_try_except.
    pose proof (chrome_loop_cases cookiefile conn chrome_queries) as Hc.
    destruct (outcome (chrome_loop cookiefile conn chrome_queries))
      as [[cs|]|e]; [|done..].
    intros [= <-]. destruct Hc as (q & rows & ?). by exists conn, q, rows.
Qed.

(** X2. Whatever an extractor returns was made of the rows that the opened
    store answered to one of that family's queries, and of nothing else;
    the host of each of these rows is text. *)
Theorem extractor_result_from_rows :
  forall (firefox : bool) (h : Host) (cookiefile : string)
         (cookies : list Cookie),
    outcome (extractor firefox h cookiefile) = Ok (Some cookies) ->
    exists conn q rows,
      connect h cookiefile = Ok conn
      /\ In q (queries_of firefox)
      /\ fetchall conn q = Ok (map sql_row rows)
      /\ rows <> []
      /\ cookies = cookies_of_rows firefox rows.
Proof. exact extractor_sound. Qed.

Lemma extractor_result_from_rows_witness :
  exists conn q rows,
    connect host_chrome chrome_store_path = Ok conn
    /\ In q (queries_of false)
    /\ fetchall conn q = Ok (map sql_row rows)
    /\ rows <> []
    /\ [firefox_cookie row_lang; firefox_cookie row_bscookie]
       = cookies_of_rows false rows.
Proof.
  apply (extractor_result_from_rows false host_chrome chrome_store_path).
  reflexivity.
Defined.

Lemma path_or_root_nonempty (p : option string) :
  path_or_root p <> EmptyString.
Proof. destruct p as [[|a t]|]; simpl; discriminate. Qed.

Lemma expiry_or_none_nonzero (e : option Z) :
  expiry_or_none e <> Some 0%Z.
Proof.
  destruct e as [z|]; simpl; [|discriminate].
  unfold Py.truthy_int. destruct (Z.eqb_spec z 0); [discriminate|].
  intros [= ->]. contradiction.
Qed.

Lemma chrome_domain_fixed (host : string) :
  chrome_domain (chrome_domain host) = chrome_domain host
  /\ (has_dot (chrome_domain host) -> starts_with_dot (chrome_domain host)).
Proof.
  unfold has_dot, starts_with_dot.
  destruct (chrome_domain_cases host) as [[D E]|[(_ & _ & E)|[D E]]].
  - rewrite !E. tauto.
  - rewrite !E, chrome_domain_dotted. split; [done | eauto].
  - rewrite !E. tauto.
Qed.

Lemma cookie_of_well_formed (row : RawCookieRow) (c : Cookie) :
  cookie_of row c -> well_formed c.
Proof.
  intros (Hd & Hp & He & _)%cookie_of_fields. unfold well_formed.
  rewrite Hd, Hp, He.
  split; [apply path_or_root_nonempty|].
  split; [apply expiry_or_none_nonzero|]. apply chrome_domain_fixed.
Qed.

Lemma cookies_of_rows_elem (firefox : bool) (rows : list RawCookieRow)
    (c : Cookie) :
  In c (cookies_of_rows firefox rows) ->
  exists row, In row rows /\ cookie_of row c
              /\ (firefox = false -> chrome_cookie row = Some c).
Proof.
  destruct firefox; simpl.
  - unfold firefox_rows. intros (row & <- & Hrow)%in_map_iff.
    exists row. split; [done|]. split; [by left | done].
  - induction rows as [|row rest IH]; simpl; [done|].
    destruct (chrome_cookie row) as [c'|] eqn:Hc.
    + intros [<-|Hin].
      * exists row. split; [by left|]. split; [by right | done].
      * destruct (IH Hin) as (r & ? & ?). exists r. split; [by right | done].
    + intros Hin. destruct (IH Hin) as (r & ? & ?).
      exists r. split; [by right | done].
Qed.

(** X3. Every cookie an extractor returns has a non-empty path, an expiry
    that is null or non-zero, and a domain the normalisation leaves alone
    (a domain with a dot starts with one); a cookie of the Chrome/Edge
    extractor has a text value. *)
Theorem extractor_cookies_well_formed :
  forall (firefox : bool) (h : Host) (cookiefile : string)
         (cookies : list Cookie) (c : Cookie),
    outcome (extractor firefox h cookiefile) = Ok (Some cookies) ->
    In c cookies ->
    well_formed c /\ (firefox = false -> text_valued c).
Proof.
  intros firefox h cookiefile cookies c Hout Hc.
  apply extractor_sound in Hout as (conn & q & rows & _ & _ & _ & _ & ->).
  apply cookies_of_rows_elem in Hc as (row & _ & Hof & Hchrome).
  split; [by apply (cookie_of_well_formed row)|].
  intros Hf. apply Hchrome, chrome_cookie_fields in Hf as (_ & Hv & _).
  unfold chrome_value in Hv.
  destruct (row_value row) as [s|bs]; [|destruct (Py.decode_utf8 bs)];
    [| |done]; injection Hv as Hv; by eexists.
Qed.

Lemma extractor_cookies_well_formed_witness :
  well_formed (firefox_cookie row_bscookie)
  /\ (false = false -> text_valued (firefox_cookie row_bscookie)).
Proof.
  apply (extractor_cookies_well_formed false host_chrome chrome_store_path
           [firefox_cookie row_lang; firefox_cookie row_bscookie]).
  - reflexivity.
  - right. left. reflexivity.
Defined.

(** ** Queries that give nothing, queries that fail *)

Lemma firefox_loop_all_skipped (cookiefile : string) (conn : Database)
    (queries : list string) :
  Forall (skipped_firefox conn) queries ->
  firefox_loop cookiefile conn queries
  = (Executed cookiefile <$> queries, Ok None).
Proof.
  induction 1 as [|a rest Ha _ IH]; [done|].
  rewrite firefox_loop_step, IH. destruct Ha as [-> | ->]; reflexivity.
Qed.

Lemma chrome_loop_all_skipped (cookiefile : string) (conn : Database)
    (queries : list string) :
  Forall (skipped_chrome conn) queries ->
  chrome_loop cookiefile conn queries
  = (Executed cookiefile <$> queries, Ok None).
Proof.
  induction 1 as [|a rest Ha _ IH]; [done|].
  rewrite chrome_loop_step, IH. destruct Ha as [[e ->] | ->]; reflexivity.
Qed.

(** X4. When the store opens and each of the family's queries is passed
    over (no row; a schema error; for Chrome/Edge any error), the extractor
    has sent every query once, in order, prints no warning and returns
    [None]. *)
Theorem exhausted_queries_give_nothing :
  forall (firefox : bool) (h : Host) (cookiefile : string) (conn : Database),
    connect h cookiefile = Ok conn ->
    Forall (skipped firefox conn) (queries_of firefox) ->
    extractor firefox h cookiefile
    = (Executed cookiefile <$> queries_of firefox, Ok None).
Proof.
  intros [|] h cookiefile conn Hconn Hall; simpl in *.
  - rewrite (extract_firefox_opened _ _ _ Hconn).
    by rewrite firefox_loop_all_skipped.
  - rewrite (extract_chrome_opened _ _ _ Hconn).
    by rewrite chrome_loop_all_skipped.
Qed.

Lemma exhausted_queries_give_nothing_witness :
  extractor false host_foreign chrome_store_path
  = (Executed chrome_store_path <$> queries_of false, Ok None).
Proof.
  apply (exhausted_queries_give_nothing false host_foreign chrome_store_path
           foreign_db eq_refl).
  unfold queries_of, chrome_queries.
  repeat (constructor; [left; by eexists|]). constructor.
Defined.

Lemma firefox_loop_aborts (cookiefile : string) (conn : Database)
    (pre : list string) (q : string) (post : list string) :
  Forall (skipped_firefox conn) pre ->
  fetchall conn q = Raised OtherException ->
  firefox_loop cookiefile conn (pre ++ q :: post)
  = (Executed cookiefile <$> (pre ++ [q]), Raised OtherException).
Proof.
  intros Hpre Hq. induction Hpre as [|a pre Ha _ IH].
  - simpl app. by rewrite firefox_loop_step, Hq.
  - simpl app. rewrite firefox_loop_step, IH.
    destruct Ha as [-> | ->]; reflexivity.
Qed.

(** X5. In the Firefox extractor an error of a query that is not an
    [OperationalError] ends the store: the queries after it are not sent,
    whatever they would answer, the warning is printed and the store gives
    [None]. *)
Theorem firefox_aborts_on_other_error :
  forall (h : Host) (cookiefile : string) (conn : Database)
         (pre : list string) (q : string) (post : list string),
    connect h cookiefile = Ok conn ->
    firefox_queries = pre ++ q :: post ->
    Forall (skipped_firefox conn) pre ->
    fetchall conn q = Raised OtherException ->
    extract_cookies_from_firefox h cookiefile
    = ((Executed cookiefile <$> (pre ++ [q]))
         ++ [Printed (WarnFirefox cookiefile)],
       Ok None).
Proof.
  intros h cookiefile conn pre q post Hconn Hqs Hpre Hq.
  rewrite (extract_firefox_opened _ _ _ Hconn), Hqs.
  by rewrite firefox_loop_aborts.
Qed.

Lemma firefox_aborts_on_other_error_witness :
  extract_cookies_from_firefox host_damaged firefox_store_path
  = ([Executed firefox_store_path fx_grouped_domain;
      Executed firefox_store_path fx_host_list;
      Printed (WarnFirefox firefox_store_path)],
     Ok None)
  /\ fetchall damaged_db fx_host_substring = Ok [sql_row row_li_at].
Proof.
  split; [|reflexivity].
  apply (firefox_aborts_on_other_error host_damaged firefox_store_path
           damaged_db [fx_grouped_domain] fx_host_list [fx_host_substring]
           eq_refl eq_refl).
  - constructor; [by right | constructor].
  - reflexivity.
Defined.

Lemma only_executed_fmap (cookiefile : string) (t : list Event) :
  (forall ev, In ev t -> exists q, ev = Executed cookiefile q) ->
  t = Executed cookiefile <$> executed t.
Proof.
  induction t as [|ev t IH]; [done|]. intros Hall.
  destruct (Hall ev) as [q ->]; [by left|].
  rewrite executed_cons, fmap_cons. f_equal.
  apply IH. intros ev' Hev'. apply Hall. by right.
Qed.

Lemma extractor_opened_chrome_silent (h : Host) (cookiefile : string)
    (conn : Database) :
  connect h cookiefile = Ok conn ->
  returns (extract_cookies_from_chrome_edge h cookiefile)
  /\ exists n, trace (extract_cookies_from_chrome_edge h cookiefile)
               = Executed cookiefile <$> take n chrome_queries.
Proof.
  intros Hconn. rewrite (extract_chrome_opened _ _ _ Hconn).
  pose proof (chrome_loop_stops cookiefile conn chrome_queries)
    as (Hev & [r Hr] & n & Hn & _).
  unfold returns. rewrite outcome_try_except, trace_try_except, Hr.
  split; [by eexists|]. rewrite app_nil_r.
  exists n. rewrite <- Hn. by apply only_executed_fmap.
Qed.

(** X6. On a store that opens the Chrome/Edge extractor returns and
    reports nothing, whatever the queries do (schema error, any other
    error, no row, a row that cannot be built): all it does is send the
    first queries of its list, in order. *)
Theorem opened_chrome_store_reports_nothing :
  forall (h : Host) (cookiefile : string) (conn : Database),
    connect h cookiefile = Ok conn ->
    returns (extract_cookies_from_chrome_edge h cookiefile)
    /\ prints (trace (extract_cookies_from_chrome_edge h cookiefile)) = []
    /\ exists n, trace (extract_cookies_from_chrome_edge h cookiefile)
                 = Executed cookiefile <$> take n chrome_queries.
Proof.
  intros h cookiefile conn Hconn.
  destruct (extractor_opened_chrome_silent _ _ conn Hconn) as (Hret & n & Ht).
  split; [done|]. split; [|by exists n]. by rewrite Ht, prints_executed.
Qed.

Lemma opened_chrome_store_reports_nothing_witness :
  returns (extract_cookies_from_chrome_edge host_blob_host chrome_store_path)
  /\ prints (trace (extract_cookies_from_chrome_edge host_blob_host
                      chrome_store_path)) = []
  /\ exists n, trace (extract_cookies_from_chrome_edge host_blob_host
                        chrome_store_path)
               = Executed chrome_store_path <$> take n chrome_queries.
Proof.
  apply (opened_chrome_store_reports_nothing host_blob_host chrome_store_path
           blob_host_db).
  reflexivity.
Defined.

(** ** Values that do not decode, in general *)

(** X24. From the rows of the query that wins, the Chrome/Edge extractor
    drops exactly the rows whose value is bytes that are not UTF-8 and
    makes a cookie of every other row, in the order of the rows: the
    cookie has the name of the row and, as its value, the text of the row
    or the text its bytes decode to.  No warning is printed. *)
Theorem chrome_drops_undecodable_rows :
  forall (h : Host) (cookiefile : string) (conn : Database)
         (pre : list string) (q : string) (rows : list RawCookieRow),
    connect h cookiefile = Ok conn ->
    first_with_rows (passed_over_chrome conn) conn chrome_queries pre q rows ->
    outcome (extract_cookies_from_chrome_edge h cookiefile)
    = Ok (Some (omap chrome_cookie rows))
    /\ prints (trace (extract_cookies_from_chrome_edge h cookiefile)) = []
    /\ (forall row, chrome_cookie row = None <-> undecodable (row_value row))
    /\ (forall row c,
          chrome_cookie row = Some c ->
          name c = row_name row
          /\ exists s, readable_as (row_value row) s /\ value c = VText s).
Proof.
  intros h cookiefile conn pre q rows Hconn Hfirst.
  rewrite (first_with_rows_passed_over _ _ _ _ _ _ Hconn Hfirst).
  cbn [outcome trace fst snd]. rewrite chrome_rows_omap, prints_executed.
  split; [done|]. split; [done|].
  split; [apply chrome_cookie_None|].
  intros row c Hc. split; [|by apply chrome_cookie_value].
  by apply chrome_cookie_fields in Hc as [? _].
Qed.

Lemma chrome_drops_undecodable_rows_witness :
  outcome (extract_cookies_from_chrome_edge host_chrome_encrypted
             chrome_store_path)
  = Ok (Some (omap chrome_cookie [row_encrypted; row_lang]))
  /\ omap chrome_cookie [row_encrypted; row_lang] = [firefox_cookie row_lang].
Proof.
  split; [|reflexivity].
  apply (chrome_drops_undecodable_rows host_chrome_encrypted chrome_store_path
           chrome_encrypted_db [] cr_substring [row_encrypted; row_lang]
           eq_refl).
  split; [by exists [cr_dotted_substring; cr_exact_host]|].
  split; [constructor|]. split; [reflexivity | discriminate].
Defined.

(** ** Deduplication, further *)

Lemma dedup_loop_seen (l : list Cookie) (s1 s2 : gset (string * string)) :
  dedup_loop l (s1 ∪ s2) []
  = filter (fun c => key c ∉ s1) (dedup_loop l s2 []).
Proof.
  revert s2. induction l as [|a r IH]; intros s2; [done|].
  rewrite !dedup_loop_cons.
  destruct (decide (key a ∈ s2)) as [H2|H2].
  - rewrite decide_True by (apply elem_of_union; by right). apply IH.
  - rewrite filter_cons. destruct (decide (key a ∈ s1)) as [H1|H1].
    + rewrite decide_True by (apply elem_of_union; by left).
      rewrite decide_False by (intros Hn; by apply Hn).
      rewrite <- IH. f_equal. apply set_eq. intros k.
      rewrite !elem_of_union, elem_of_singleton.
      split; [tauto | intros [?|[->|?]]; tauto].
    + rewrite decide_False
        by (intros [?|?]%elem_of_union; contradiction).
      rewrite decide_True by done. f_equal. rewrite <- IH. f_equal.
      apply set_eq. intros k. rewrite !elem_of_union. tauto.
Qed.

Lemma dedup_loop_app (l1 l2 : list Cookie) (seen : gset (string * string)) :
  dedup_loop (l1 ++ l2) seen []
  = dedup_loop l1 seen []
      ++ dedup_loop l2 (list_to_set (key <$> l1) ∪ seen) [].
Proof.
  revert seen. induction l1 as [|a r IH]; intros seen.
  - simpl. f_equal. apply set_eq. intros k.
    rewrite elem_of_union, elem_of_empty. tauto.
  - rewrite <- app_comm_cons, !dedup_loop_cons, fmap_cons, list_to_set_cons.
    destruct (decide (key a ∈ seen)) as [Ha|Ha].
    + rewrite IH. f_equal. f_equal. apply set_eq. intros k.
      rewrite !elem_of_union, elem_of_singleton.
      split; [tauto | intros [[->|?]|?]; tauto].
    + rewrite IH. simpl. f_equal. f_equal. f_equal. apply set_eq. intros k.
      rewrite !elem_of_union. tauto.
Qed.

(** X7. Cookies found later never displace or reorder what was found
    before: the deduplication of [l1 ++ l2] is the deduplication of [l1]
    followed by those cookies of the deduplication of [l2] whose key does
    not occur in [l1]. *)
Theorem deduplication_of_append :
  forall l1 l2 : list Cookie,
    remove_duplicates (l1 ++ l2)
    = remove_duplicates l1
        ++ filter (fun c => key c ∉ key <$> l1) (remove_duplicates l2).
Proof.
  intros l1 l2. unfold remove_duplicates.
  rewrite dedup_loop_app, dedup_loop_seen. f_equal.
  apply list_filter_iff. intros c. by rewrite elem_of_list_to_set.
Qed.

Lemma dedup_loop_id (l : list Cookie) (seen : gset (string * string)) :
  NoDup (key <$> l) ->
  (forall c, c ∈ l -> key c ∉ seen) ->
  dedup_loop l seen [] = l.
Proof.
  revert seen. induction l as [|a r IH]; intros seen Hnd Hseen; [done|].
  rewrite fmap_cons in Hnd. apply NoDup_cons in Hnd as [Ha Hnd].
  rewrite dedup_loop_cons.
  rewrite decide_False by (apply Hseen; by left).
  f_equal. apply IH; [done|].
  intros c Hc [Hk%elem_of_singleton|Hk]%elem_of_union.
  - apply Ha. rewrite <- Hk. by apply list_elem_of_fmap_2.
  - apply (Hseen c); [by right | done].
Qed.

(** X8. A list in which no two cookies share a key is left as it is, and
    deduplicating twice is deduplicating once. *)
Theorem deduplication_idempotent :
  forall l : list Cookie,
    (NoDup (key <$> l) -> remove_duplicates l = l)
    /\ remove_duplicates (remove_duplicates l) = remove_duplicates l.
Proof.
  intros l.
  assert (Hid : forall l', NoDup (key <$> l') -> remove_duplicates l' = l').
  { intros l' Hnd. apply dedup_loop_id; [done|].
    intros c _. apply not_elem_of_empty. }
  split; [apply Hid|]. apply Hid, dedup_loop_NoDup.
Qed.

Lemma deduplication_idempotent_witness :
  remove_duplicates [firefox_cookie row_lang; firefox_cookie row_bscookie]
  = [firefox_cookie row_lang; firefox_cookie row_bscookie].
Proof.
  pose proof (deduplication_idempotent
                [firefox_cookie row_lang; firefox_cookie row_bscookie])
    as [Hid _].
  apply Hid. refine (bool_decide_unpack _ _). vm_compute. exact I.
Defined.

Lemma remove_duplicates_elem (l : list Cookie) (c : Cookie) :
  c ∈ remove_duplicates l -> c ∈ l.
Proof.
  intros (_ & i & Hi & _)%dedup_loop_elem.
  apply list_elem_of_lookup. eauto.
Qed.

Lemma remove_duplicates_key (l : list Cookie) (c : Cookie) :
  c ∈ l -> exists c', c' ∈ remove_duplicates l /\ key c' = key c.
Proof.
  intros (i & c' & Hfirst & Hk)%first_with_key_exists.
  exists c'. split; [|done]. apply dedup_loop_elem.
  split; [apply not_elem_of_empty | eauto].
Qed.

(** X9. Deduplication does not change the verdict: it is the same on the
    cookies as they were found and on the deduplicated ones. *)
Theorem verdict_unchanged_by_deduplication :
  forall all_cookies : list Cookie,
    found_auth_cookies (remove_duplicates all_cookies)
    = found_auth_cookies all_cookies.
Proof.
  intros l. apply eq_true_iff_eq. rewrite !found_auth_cookies_spec. split.
  - intros (c & Hc & Hn). exists c. split; [by apply remove_duplicates_elem | done].
  - intros (c & Hc & Hn).
    destruct (remove_duplicates_key l c Hc) as (c' & Hc' & Hk).
    exists c'. split; [done|]. unfold key in Hk. by injection Hk as -> _.
Qed.

(** ** The scan of the stores *)

Lemma extractor_returns (firefox : bool) (h : Host) (cookiefile : string) :
  returns (extractor firefox h cookiefile).
Proof.
  destruct (connect h cookiefile) as [conn|e] eqn:Hconn.
  - destruct firefox; simpl.
    + rewrite (extract_firefox_opened _ _ _ Hconn). unfold returns.
      rewrite outcome_try_except.
      destruct (outcome (firefox_loop cookiefile conn firefox_queries));
        by eexists.
    + by apply (extractor_opened_chrome_silent _ _ conn).
  - unfold returns. rewrite (extractor_unopenable _ _ _ e Hconn). by eexists.
Qed.

Lemma outcome_when_print (b : bool) (m : Message) :
  outcome (when b (print m)) = Ok tt.
Proof. by destruct b. Qed.

Lemma scan_step (h : Host) (quiet : bool) (cookiefile : string)
    (rest : list string) (all_cookies : list Cookie) :
  scan h quiet (cookiefile :: rest) all_cookies =
    let ex := extractor (looks_like_firefox cookiefile) h cookiefile in
    let found := contribution h cookiefile in
    (trace (when (negb quiet) (print (MsgCheckingFile cookiefile)))
       ++ trace ex
       ++ match found with
          | [] => []
          | _ => trace (when (negb quiet) (print (MsgFound (length found))))
          end
       ++ trace (scan h quiet rest (all_cookies ++ found)),
     outcome (scan h quiet rest (all_cookies ++ found))).
Proof.
  cbn zeta. unfold contribution. cbn [scan].
  change (if looks_like_firefox cookiefile
          then extract_cookies_from_firefox h cookiefile
          else extract_cookies_from_chrome_edge h cookiefile)
    with (extractor (looks_like_firefox cookiefile) h cookiefile).
  destruct (extractor_returns (looks_like_firefox cookiefile) h cookiefile)
    as [r Hr].
  rewrite (eff_eta (bind _ _)).
  rewrite !trace_bind, !outcome_bind, outcome_when_print, Hr.
  destruct r as [[|c cs]|].
  - rewrite app_nil_r. reflexivity.
  - by rewrite trace_bind, outcome_bind, outcome_when_print.
  - rewrite app_nil_r. reflexivity.
Qed.

Lemma scan_outcome (h : Host) (quiet : bool) (cookie_files : list string)
    (all_cookies : list Cookie) :
  outcome (scan h quiet cookie_files all_cookies)
  = Ok (all_cookies ++ flat_map (contribution h) cookie_files).
Proof.
  revert all_cookies. induction cookie_files as [|f rest IH]; intros acc.
  - simpl. by rewrite app_nil_r.
  - rewrite scan_step. cbn zeta. cbn [outcome snd].
    rewrite IH. simpl flat_map. by rewrite app_assoc.
Qed.

(** X10. Whenever the scan of the stores returns, it has collected the
    cookies in the order of the ranked stores, and inside a store in the
    order of its rows: the result is what was there before followed by
    the contribution of each store in turn, where a store that gave [None]
    or nothing contributes nothing. *)
Theorem scan_collects_in_order :
  forall (h : Host) (quiet : bool) (cookie_files : list string)
         (all_cookies result : list Cookie),
    outcome (scan h quiet cookie_files all_cookies) = Ok result ->
    result = all_cookies ++ flat_map (contribution h) cookie_files.
Proof.
  intros h quiet cookie_files all_cookies result.
  rewrite scan_outcome. by intros [= <-].
Qed.

Lemma scan_collects_in_order_witness :
  [firefox_cookie row_lang; firefox_cookie row_bscookie]
  = [] ++ flat_map (contribution host_chrome) [chrome_store_path].
Proof.
  apply (scan_collects_in_order host_chrome true [chrome_store_path] []).
  reflexivity.
Defined.

(** ** What a run may do *)

Lemma Forall_trace_bind {A B} (P : Event -> Prop) (m : Eff A)
    (k : A -> Eff B) :
  Forall P (trace m) ->
  (forall a, outcome m = Ok a -> Forall P (trace (k a))) ->
  Forall P (trace (bind m k)).
Proof.
  intros Hm Hk. rewrite trace_bind. apply Forall_app. split; [done|].
  destruct (outcome m) as [a|e]; [by apply Hk | constructor].
Qed.

Lemma probe_trace_Forall (P : Event -> Prop) (h : Host) (cookiefile : string)
    (is_firefox : bool) :
  (forall sql, In sql (probes is_firefox) -> P (Executed cookiefile sql)) ->
  Forall P (trace (has_linkedin_cookies h cookiefile is_firefox)).
Proof.
  intros HP. unfold has_linkedin_cookies, probe_body, execute_fetchone.
  destruct is_firefox; destruct (connect h cookiefile) as [conn|e0]; simpl;
    try constructor.
  - destruct (fetchone conn probe_baseDomain) as [r1|[|]]; simpl;
      [|destruct (fetchone conn probe_host) as [r2|e2]; simpl|].
    all: repeat (constructor; [apply HP; simpl; tauto|]); constructor.
  - destruct (fetchone conn probe_host_key) as [r|e]; simpl.
    all: repeat (constructor; [apply HP; simpl; tauto|]); constructor.
Qed.

Lemma rank_loop_trace_Forall (P : Event -> Prop) (h : Host)
    (is_firefox : bool) (files prioritized others : list string) :
  (forall f sql, f ∈ files -> In sql (probes is_firefox) ->
                 P (Executed f sql)) ->
  Forall P (trace (rank_loop h is_firefox files prioritized others)).
Proof.
  revert prioritized others.
  induction files as [|f rest IH]; intros prioritized others HP;
    [constructor|].
  cbn [rank_loop]. apply Forall_trace_bind.
  - apply probe_trace_Forall. intros sql Hsql. apply HP; [by left | done].
  - intros found _. destruct found; apply IH; intros f' sql Hf';
      apply HP; by right.
Qed.

Lemma rank_shape (h : Host) (is_firefox : bool) (files : list string) :
  exists t,
    rank h is_firefox files = (t, Ok (ranking h is_firefox files))
    /\ forall P : Event -> Prop,
         (forall f sql, f ∈ files -> In sql (probes is_firefox) ->
                        P (Executed f sql)) ->
         Forall P t.
Proof.
  exists (trace (rank h is_firefox files)). split.
  - rewrite (eff_eta (rank h is_firefox files)) at 1.
    by rewrite rank_outcome.
  - intros P HP. unfold rank. apply Forall_trace_bind.
    + by apply rank_loop_trace_Forall.
    + intros po _. constructor.
Qed.

Lemma ranking_perm (h : Host) (is_firefox : bool) (files : list string) :
  ranking h is_firefox files ≡ₚ files.
Proof.
  destruct (filter_stable_partition (confirmed h is_firefox) files)
    as (p & o & _ & _ & _ & _ & _ & Hperm). exact Hperm.
Qed.

Lemma ranking_nil (h : Host) (is_firefox : bool) (files : list string) :
  ranking h is_firefox files = [] -> files = [].
Proof.
  intros Hr. apply Permutation_nil_r. rewrite <- Hr.
  symmetry. apply ranking_perm.
Qed.

Lemma locator_firefox_shape (h : Host) :
  exists t,
    get_firefox_cookie_files h
    = (t, Ok (ranking h true (firefox_candidates h)))
    /\ forall P : Event -> Prop,
         (forall f sql, f ∈ firefox_candidates h -> In sql (probes true) ->
                        P (Executed f sql)) ->
         Forall P t.
Proof.
  unfold get_firefox_cookie_files.
  destruct (firefox_candidates h) as [|f rest] eqn:Hc.
  - exists []. split; [done|]. intros P _. constructor.
  - apply rank_shape.
Qed.

Ltac select_setup h :=
  destruct (locator_firefox_shape h) as (tF & HF & HPF);
  destruct (rank_shape h false (chromium_candidates h (chrome_base_paths h)))
    as (tC & HC & HPC);
  destruct (rank_shape h false (chromium_candidates h (edge_base_paths h)))
    as (tE & HE & HPE);
  unfold select_cookie_files, get_chrome_cookie_files, get_edge_cookie_files;
  rewrite ?HF, ?HC, ?HE.

Lemma ranking_candidates_firefox (h : Host) (f : string) :
  f ∈ ranking h true (firefox_candidates h) -> f ∈ firefox_candidates h.
Proof. by rewrite ranking_perm. Qed.

Lemma ranking_candidates (h : Host) (is_firefox : bool) (files : list string)
    (f : string) :
  f ∈ ranking h is_firefox files <-> f ∈ files.
Proof. by rewrite ranking_perm. Qed.

Lemma select_shape (h : Host) (browser : option string) (quiet : bool) :
  exists t files name,
    select_cookie_files h browser quiet = (t, Ok (files, name))
    /\ (forall f, f ∈ files -> f ∈ candidates h)
    /\ forall P : Event -> Prop,
         (quiet = false -> forall m, P (Printed m)) ->
         (forall f sql,
             (f ∈ firefox_candidates h /\ In sql (probes true))
             \/ (f ∈ chromium_candidates h (chrome_base_paths h)
                      ++ chromium_candidates h (edge_base_paths h)
                 /\ In sql (probes false)) ->
             P (Executed f sql)) ->
         Forall P t.
Proof.
  select_setup h.
  assert (HinF : forall f, f ∈ ranking h true (firefox_candidates h) ->
                           f ∈ candidates h).
  { intros f Hf%ranking_candidates. unfold candidates.
    apply elem_of_app. by left. }
  assert (HinC : forall f,
             f ∈ ranking h false (chromium_candidates h (chrome_base_paths h)) ->
             f ∈ candidates h).
  { intros f Hf%ranking_candidates. unfold candidates.
    apply elem_of_app. right. apply elem_of_app. by left. }
  assert (HinE : forall f,
             f ∈ ranking h false (chromium_candidates h (edge_base_paths h)) ->
             f ∈ candidates h).
  { intros f Hf%ranking_candidates. unfold candidates.
    apply elem_of_app. right. apply elem_of_app. by right. }
  assert (HallF : forall P : Event -> Prop,
             (forall f sql,
                 (f ∈ firefox_candidates h /\ In sql (probes true))
                 \/ (f ∈ chromium_candidates h (chrome_base_paths h)
                          ++ chromium_candidates h (edge_base_paths h)
                     /\ In sql (probes false)) ->
                 P (Executed f sql)) ->
             Forall P tF /\ Forall P tC /\ Forall P tE).
  { intros P HP. split; [|split].
    - apply HPF. intros f sql Hf Hs. apply HP. by left.
    - apply HPC. intros f sql Hf Hs. apply HP. right. split; [|done].
      apply elem_of_app. by left.
    - apply HPE. intros f sql Hf Hs. apply HP. right. split; [|done].
      apply elem_of_app. by right. }
  destruct (browser_is browser "firefox");
    [|destruct (browser_is browser "chrome");
      [|destruct (browser_is browser "edge")]].
  - eexists _, _, _. split; [reflexivity|]. split; [exact HinF|].
    intros P _ HP. simpl. rewrite app_nil_r. by apply HallF.
  - eexists _, _, _. split; [reflexivity|]. split; [exact HinC|].
    intros P _ HP. simpl. rewrite app_nil_r. by apply HallF.
  - eexists _, _, _. split; [reflexivity|]. split; [exact HinE|].
    intros P _ HP. simpl. rewrite app_nil_r. by apply HallF.
  - destruct (ranking h true (firefox_candidates h)) as [|f1 r1];
      [destruct (ranking h false
                   (chromium_candidates h (chrome_base_paths h)))
         as [|f2 r2];
       [destruct (ranking h false
                    (chromium_candidates h (edge_base_paths h)))
          as [|f3 r3]|]|].
    all: destruct quiet; simpl.
    all: eexists _, _, _; (split; [reflexivity|]).
    all: split; [first [exact HinF | exact HinC | exact HinE
                       | intros f Hf; by apply elem_of_nil in Hf]|].
    all: intros P Hprint HP; destruct (HallF P HP) as (H1 & H2 & H3).
    all: rewrite ?app_nil_r.
    all: repeat first [ assumption
                      | apply Forall_app; split
                      | constructor; [by apply Hprint|]
                      | constructor ].
Qed.

Lemma select_quiet (h : Host) (browser : option string) :
  outcome (select_cookie_files h browser true)
  = outcome (select_cookie_files h browser false)
  /\ effects (trace (select_cookie_files h browser true))
     = effects (trace (select_cookie_files h browser false)).
Proof.
  select_setup h.
  destruct (browser_is browser "firefox");
    [|destruct (browser_is browser "chrome");
      [|destruct (browser_is browser "edge")]]; [by split..|].
  destruct (ranking h true (firefox_candidates h)) as [|f1 r1];
    [destruct (ranking h false
                 (chromium_candidates h (chrome_base_paths h)))
       as [|f2 r2];
     [destruct (ranking h false
                  (chromium_candidates h (edge_base_paths h)))
        as [|f3 r3]|]|].
  all: by split.
Qed.

Lemma select_firefox_first (h : Host) (browser : option string)
    (quiet : bool) :
  browser_is browser "firefox" = true
  \/ (auto_detect browser /\ firefox_candidates h <> []) ->
  exists t,
    select_cookie_files h browser quiet
    = (t, Ok (ranking h true (firefox_candidates h), "Firefox"))
    /\ forall P : Event -> Prop,
         (quiet = false -> forall m, P (Printed m)) ->
         (forall f sql, f ∈ firefox_candidates h -> In sql (probes true) ->
                        P (Executed f sql)) ->
         Forall P t.
Proof.
  intros Hsel. select_setup h.
  destruct Hsel as [-> | [(-> & -> & ->) Hne]].
  - eexists. split; [reflexivity|]. intros P _ HP. simpl.
    rewrite app_nil_r. by apply HPF.
  - destruct (ranking h true (firefox_candidates h)) as [|f1 r1] eqn:Hr;
      [by apply ranking_nil in Hr|].
    destruct quiet; simpl; (eexists; split; [reflexivity|]);
      intros P Hprint HP; rewrite ?app_nil_r.
    + by apply HPF.
    + constructor; [by apply Hprint | by apply HPF].
Qed.

Lemma firefox_loop_trace_Forall (P : Event -> Prop) (cookiefile : string)
    (conn : Database) (queries : list string) :
  (forall sql, In sql queries -> P (Executed cookiefile sql)) ->
  Forall P (trace (firefox_loop cookiefile conn queries)).
Proof.
  induction queries as [|q rest IH]; intros HP; [constructor|].
  rewrite firefox_loop_step.
  destruct (fetchall conn q) as [[|row rows]|[|]];
    try destruct (typed_rows (row :: rows)); cbn [trace fst].
  all: constructor; [apply HP; by left|].
  all: first [apply IH; intros sql Hs; apply HP; by right | constructor].
Qed.

Lemma chrome_loop_trace_Forall (P : Event -> Prop) (cookiefile : string)
    (conn : Database) (queries : list string) :
  (forall sql, In sql queries -> P (Executed cookiefile sql)) ->
  Forall P (trace (chrome_loop cookiefile conn queries)).
Proof.
  induction queries as [|q rest IH]; intros HP; [constructor|].
  rewrite chrome_loop_step.
  destruct (fetchall conn q) as [[|row rows]|e];
    try destruct (typed_rows (row :: rows)); cbn [trace fst].
  all: constructor; [apply HP; by left|].
  all: first [apply IH; intros sql Hs; apply HP; by right | constructor].
Qed.

Lemma extractor_trace_Forall (P : Event -> Prop) (firefox : bool) (h : Host)
    (cookiefile : string) :
  P (Printed (warning_of firefox cookiefile)) ->
  (forall sql, In sql (queries_of firefox) -> P (Executed cookiefile sql)) ->
  Forall P (trace (extractor firefox h cookiefile)).
Proof.
  intros Hwarn HP.
  destruct (connect h cookiefile) as [conn|e] eqn:Hconn.
  - destruct firefox; simpl in *.
    + rewrite (extract_firefox_opened _ _ _ Hconn), trace_try_except.
      apply Forall_app. split; [by apply firefox_loop_trace_Forall|].
      destruct (outcome (firefox_loop cookiefile conn firefox_queries));
        repeat constructor. exact Hwarn.
    + rewrite (extract_chrome_opened _ _ _ Hconn), trace_try_except.
      apply Forall_app. split; [by apply chrome_loop_trace_Forall|].
      destruct (outcome (chrome_loop cookiefile conn chrome_queries));
        repeat constructor. exact Hwarn.
  - rewrite (extractor_unopenable _ _ _ e Hconn). by repeat constructor.
Qed.

Lemma when_print_Forall (P : Event -> Prop) (quiet : bool) (m : Message) :
  (quiet = false -> forall m', P (Printed m')) ->
  Forall P (trace (when (negb quiet) (print m))).
Proof.
  intros Hprint. destruct quiet; simpl; repeat constructor. by apply Hprint.
Qed.

Lemma scan_trace_Forall (P : Event -> Prop) (h : Host) (quiet : bool)
    (files : list string) (all_cookies : list Cookie) :
  (quiet = false -> forall m, P (Printed m)) ->
  (forall f, f ∈ files ->
             P (Printed (warning_of (looks_like_firefox f) f))
             /\ forall sql, In sql (queries_of (looks_like_firefox f)) ->
                            P (Executed f sql)) ->
  Forall P (trace (scan h quiet files all_cookies)).
Proof.
  intros Hprint. revert all_cookies.
  induction files as [|f rest IH]; intros acc HP; [constructor|].
  rewrite scan_step. cbn zeta. cbn [trace fst].
  destruct (HP f) as [Hw Hq]; [by left|].
  apply Forall_app. split; [by apply when_print_Forall|].
  apply Forall_app. split; [by apply extractor_trace_Forall|].
  apply Forall_app. split.
  - destruct (contribution h f); [constructor | by apply when_print_Forall].
  - apply IH. intros f' Hf'. apply HP. by right.
Qed.

(** ** The end of a run *)

Lemma finalize_outcome (h : Host) (all_cookies : list Cookie)
    (output_file : string) (quiet : bool) :
  outcome (finalize h all_cookies output_file quiet)
  = Ok (if can_save h all_cookies output_file then Some output_file
        else None).
Proof.
  unfold finalize, can_save, save, lift.
  destruct all_cookies as [|c l]; [by destruct quiet|].
  generalize (remove_duplicates (c :: l)). intros u.
  destruct (found_auth_cookies u), quiet,
    (open_w h output_file) as [[]|e], (write_w h output_file) as [[]|e'],
    (json_serializable u); reflexivity.
Qed.

Lemma finalize_trace_Forall (P : Event -> Prop) (h : Host)
    (all_cookies : list Cookie) (output_file : string) (quiet : bool) :
  (quiet = false -> forall m, P (Printed m)) ->
  P (OpenedForWriting output_file) ->
  (can_save h all_cookies output_file = true ->
   P (Dumped output_file (remove_duplicates all_cookies))) ->
  Forall P (trace (finalize h all_cookies output_file quiet)).
Proof.
  intros Hprint Hopen Hdump. unfold finalize, can_save, save, lift in *.
  destruct all_cookies as [|c l].
  - destruct quiet; simpl; repeat constructor; by apply Hprint.
  - revert Hdump. generalize (remove_duplicates (c :: l)). intros u Hdump.
    destruct (found_auth_cookies u), quiet,
      (open_w h output_file) as [[]|e], (write_w h output_file) as [[]|e'],
      (json_serializable u); simpl.
    all: repeat (constructor;
                 [first [ exact Hopen | by apply Hdump | by apply Hprint ]|]).
    all: constructor.
Qed.

Lemma finalize_dumps (h : Host) (all_cookies : list Cookie)
    (output_file : string) (quiet : bool) :
  can_save h all_cookies output_file = true ->
  In (Dumped output_file (remove_duplicates all_cookies))
     (trace (finalize h all_cookies output_file quiet)).
Proof.
  unfold finalize, can_save, save, lift.
  destruct all_cookies as [|c l]; [done|].
  generalize (remove_duplicates (c :: l)). intros u.
  destruct (found_auth_cookies u), quiet,
    (open_w h output_file) as [[]|e], (write_w h output_file) as [[]|e'],
    (json_serializable u); simpl;
    intros; try done; tauto.
Qed.

(** ** A run, taken apart *)

Lemma run_shape (h : Host) (browser : option string) (output_file : string)
    (quiet : bool) (t : list Event) (files : list string) (name : string) :
  select_cookie_files h browser quiet = (t, Ok (files, name)) ->
  extract_linkedin_cookies h browser output_file quiet
  = (trace (when (negb quiet) (print MsgExtracting)) ++ t
       ++ match files with
          | [] =>
            trace (when (negb quiet)
                     (print MsgNoCookieFiles ;;; print MsgPleaseLogIn))
          | _ :: _ =>
            trace (when (negb quiet)
                     (print (MsgCheckingFiles (length files) name)))
            ++ trace (scan h quiet files [])
            ++ trace (finalize h (flat_map (contribution h) files)
                        output_file quiet)
          end,
     match files with
     | [] => Ok None
     | _ :: _ =>
       outcome (finalize h (flat_map (contribution h) files)
                  output_file quiet)
     end).
Proof.
  intros Hsel. unfold extract_linkedin_cookies. rewrite Hsel.
  rewrite (eff_eta (bind _ _)), !trace_bind, !outcome_bind,
    outcome_when_print.
  cbn [trace outcome fst snd]. destruct files as [|f rest].
  - cbn [fst]. destruct quiet; reflexivity.
  - cbn [fst snd]. rewrite !trace_bind, !outcome_bind, outcome_when_print.
    rewrite (scan_outcome h quiet (f :: rest) []).
    by rewrite app_nil_l.
Qed.

Lemma selected_eq (h : Host) (browser : option string) (quiet : bool)
    (t : list Event) (files : list string) (name : string) :
  select_cookie_files h browser quiet = (t, Ok (files, name)) ->
  selected h browser = files.
Proof.
  intros Hsel. unfold selected.
  destruct (select_quiet h browser) as [Hq _].
  destruct quiet; [by rewrite Hsel | by rewrite Hq, Hsel].
Qed.

Lemma run_outcome (h : Host) (browser : option string) (output_file : string)
    (quiet : bool) :
  outcome (extract_linkedin_cookies h browser output_file quiet)
  = Ok (if can_save h (collected h browser) output_file
        then Some output_file else None).
Proof.
  destruct (select_shape h browser quiet) as (t & files & name & Hsel & _).
  rewrite (run_shape _ _ _ _ _ _ _ Hsel). unfold collected.
  rewrite (selected_eq _ _ _ _ _ _ Hsel). cbn [outcome snd].
  destruct files as [|f rest]; [done|]. apply finalize_outcome.
Qed.

Lemma run_trace_Forall_selected (P : Event -> Prop) (h : Host)
    (browser : option string) (output_file : string) (quiet : bool)
    (t : list Event) (files : list string) (name : string) :
  select_cookie_files h browser quiet = (t, Ok (files, name)) ->
  Forall P t ->
  (quiet = false -> forall m, P (Printed m)) ->
  (forall f, f ∈ files ->
             P (Printed (warning_of (looks_like_firefox f) f))
             /\ forall sql, In sql (queries_of (looks_like_firefox f)) ->
                            P (Executed f sql)) ->
  P (OpenedForWriting output_file) ->
  (can_save h (collected h browser) output_file = true ->
   P (Dumped output_file (remove_duplicates (collected h browser)))) ->
  Forall P (trace (extract_linkedin_cookies h browser output_file quiet)).
Proof.
  intros Hsel Ht Hprint Hscan Hopen Hdump.
  rewrite (run_shape _ _ _ _ _ _ _ Hsel). cbn [trace fst].
  unfold collected in Hdump. rewrite (selected_eq _ _ _ _ _ _ Hsel) in Hdump.
  apply Forall_app. split; [by apply when_print_Forall|].
  apply Forall_app. split; [done|].
  destruct files as [|f rest].
  - destruct quiet; simpl; repeat constructor; by apply Hprint.
  - apply Forall_app. split; [by apply when_print_Forall|].
    apply Forall_app. split; [by apply scan_trace_Forall|].
    by apply finalize_trace_Forall.
Qed.

Lemma run_trace_Forall (P : Event -> Prop) (h : Host)
    (browser : option string) (output_file : string) (quiet : bool) :
  (quiet = false -> forall m, P (Printed m)) ->
  (forall f, f ∈ candidates h ->
             P (Printed (warning_of (looks_like_firefox f) f))) ->
  (forall f sql, store_statement h f sql -> P (Executed f sql)) ->
  P (OpenedForWriting output_file) ->
  (can_save h (collected h browser) output_file = true ->
   P (Dumped output_file (remove_duplicates (collected h browser)))) ->
  Forall P (trace (extract_linkedin_cookies h browser output_file quiet)).
Proof.
  intros Hprint Hwarn Hstmt Hopen Hdump.
  destruct (select_shape h browser quiet)
    as (t & files & name & Hsel & Hfiles & Ht).
  apply (run_trace_Forall_selected P _ _ _ _ t files name); try done.
  - apply Ht; [done|]. intros f sql [H|H]; apply Hstmt.
    + by left.
    + right. by left.
  - intros f Hf. split; [by apply Hwarn, Hfiles|].
    intros sql Hsql. apply Hstmt. right. right. split; [by apply Hfiles | done].
Qed.

Lemma can_save_spec (h : Host) (all_cookies : list Cookie)
    (output_file : string) :
  can_save h all_cookies output_file = true
  <-> all_cookies <> []
      /\ open_w h output_file = Ok tt
      /\ write_w h output_file = Ok tt
      /\ json_serializable (remove_duplicates all_cookies) = true.
Proof.
  unfold can_save. destruct all_cookies as [|c l].
  - split; [done | by intros [? _]].
  - destruct (open_w h output_file) as [[]|e];
      [destruct (write_w h output_file) as [[]|e']|].
    + split; [by intros -> | by intros (_ & _ & _ & ->)].
    + split; [done | by intros (_ & _ & ? & _)].
    + split; [done | by intros (_ & ? & _)].
Qed.

Lemma run_returns_path (h : Host) (browser : option string)
    (output_file : string) (quiet : bool) (p : string) :
  outcome (extract_linkedin_cookies h browser output_file quiet)
  = Ok (Some p) ->
  p = output_file /\ can_save h (collected h browser) output_file = true.
Proof.
  rewrite run_outcome.
  destruct (can_save h (collected h browser) output_file); [|discriminate].
  by intros [= <-].
Qed.

Lemma contribution_elem (h : Host) (f : string) (c : Cookie) :
  In c (contribution h f) ->
  exists cookies,
    outcome (extractor (looks_like_firefox f) h f) = Ok (Some cookies)
    /\ In c cookies.
Proof.
  unfold contribution.
  destruct (outcome (extractor (looks_like_firefox f) h f)) as [[cs|]|e];
    [eauto | done..].
Qed.

Lemma collected_well_formed (h : Host) (browser : option string) (c : Cookie) :
  In c (collected h browser) -> well_formed c.
Proof.
  unfold collected. intros (f & _ & Hc)%in_flat_map.
  apply contribution_elem in Hc as (cookies & Hout & Hc).
  apply extractor_sound in Hout as (conn & q & rows & _ & _ & _ & _ & ->).
  apply cookies_of_rows_elem in Hc as (row & _ & Hof & _).
  by apply (cookie_of_well_formed row).
Qed.

Lemma json_serializable_text (cookies : list Cookie) (c : Cookie) :
  json_serializable cookies = true -> In c cookies -> text_valued c.
Proof.
  unfold json_serializable. rewrite forallb_forall. intros Hall Hc.
  specialize (Hall c Hc). unfold text_valued.
  destruct (value c); [by eexists | done].
Qed.

Lemma remove_duplicates_nonempty (l : list Cookie) :
  l <> [] -> remove_duplicates l <> [].
Proof.
  destruct l as [|c r]; [done|]. intros _. unfold remove_duplicates.
  rewrite dedup_loop_cons. rewrite decide_False by apply not_elem_of_empty.
  discriminate.
Qed.

Lemma run_dumps (h : Host) (browser : option string) (output_file : string)
    (quiet : bool) :
  can_save h (collected h browser) output_file = true ->
  In (Dumped output_file (remove_duplicates (collected h browser)))
     (trace (extract_linkedin_cookies h browser output_file quiet)).
Proof.
  intros Hsave.
  destruct (select_shape h browser quiet) as (t & files & name & Hsel & _).
  rewrite (run_shape _ _ _ _ _ _ _ Hsel). cbn [trace fst].
  unfold collected in *. rewrite (selected_eq _ _ _ _ _ _ Hsel) in *.
  destruct files as [|f rest]; [done|].
  apply in_or_app. right. apply in_or_app. right.
  apply in_or_app. right. apply in_or_app. right.
  by apply finalize_dumps.
Qed.

(** X11. A run that returns a path returns the output path, and then the
    selected stores gave at least one cookie, the output file opened, no
    deduplicated cookie has a [bytes] value, the write went through and
    what was dumped to the output file is the deduplication of the
    collected cookies. *)
Theorem run_returns_path_only_after_saving :
  forall (h : Host) (browser : option string) (output_file : string)
         (quiet : bool) (p : string),
    outcome (extract_linkedin_cookies h browser output_file quiet)
    = Ok (Some p) ->
    p = output_file
    /\ collected h browser <> []
    /\ open_w h output_file = Ok tt
    /\ write_w h output_file = Ok tt
    /\ json_serializable (remove_duplicates (collected h browser)) = true
    /\ In (Dumped output_file (remove_duplicates (collected h browser)))
          (trace (extract_linkedin_cookies h browser output_file quiet)).
Proof.
  intros h browser output_file quiet p [-> Hsave]%run_returns_path.
  split; [done|].
  pose proof (run_dumps h browser output_file quiet Hsave) as Hd.
  apply can_save_spec in Hsave. tauto.
Qed.

Lemma run_returns_path_only_after_saving_witness :
  collected host_chrome None <> []
  /\ In (Dumped "out.json" (remove_duplicates (collected host_chrome None)))
        (trace (extract_linkedin_cookies host_chrome None "out.json" true)).
Proof.
  pose proof (run_returns_path_only_after_saving host_chrome None "out.json"
                true "out.json" eq_refl) as (_ & Hne & _ & _ & _ & Hd).
  by split.
Defined.

(** X12. What a run writes with [open] and [json.dump] goes to the output
    file, and a dump that went through holds the deduplication of the
    cookies collected from the selected stores: a non-empty list without
    two cookies of the same key, each cookie with a text value, a
    non-empty path, a null or non-zero expiry and a normalised domain. *)
Theorem dumped_cookies_contract :
  forall (h : Host) (browser : option string) (output_file : string)
         (quiet : bool),
    Forall
      (fun ev =>
         match ev with
         | OpenedForWriting f => f = output_file
         | Dumped f cs =>
           f = output_file
           /\ cs = remove_duplicates (collected h browser)
           /\ cs <> []
           /\ NoDup (key <$> cs)
           /\ forall c, In c cs -> text_valued c /\ well_formed c
         | _ => True
         end)
      (trace (extract_linkedin_cookies h browser output_file quiet)).
Proof.
  intros h browser output_file quiet.
  assert (Hall : Forall
            (fun ev =>
               match ev with
               | OpenedForWriting f => f = output_file
               | Dumped f cs =>
                 f = output_file
                 /\ cs = remove_duplicates (collected h browser)
                 /\ can_save h (collected h browser) output_file = true
               | _ => True
               end)
            (trace (extract_linkedin_cookies h browser output_file quiet))).
  { apply run_trace_Forall; done. }
  eapply Forall_impl; [exact Hall|]. intros [m|f sql|f|f cs]; try done.
  intros (-> & -> & Hsave).
  apply can_save_spec in Hsave as (Hne & _ & _ & Hjs).
  split; [done|]. split; [done|].
  split; [by apply remove_duplicates_nonempty|].
  split; [apply dedup_loop_NoDup|].
  intros c Hc. split; [by apply (json_serializable_text _ _ Hjs)|].
  apply (collected_well_formed h browser).
  by apply list_elem_of_In, remove_duplicates_elem, list_elem_of_In.
Qed.

Lemma Forall_prints (Q : Message -> Prop) (t : list Event) :
  Forall (fun ev => forall m, ev = Printed m -> Q m) t ->
  Forall Q (prints t).
Proof.
  induction 1 as [|ev t Hev _ IH]; [constructor|].
  destruct ev; simpl; try done. constructor; [by apply Hev | done].
Qed.

(** X13. A quiet run prints nothing but the extractors' warnings about
    stores they could not read. *)
Theorem quiet_prints_only_warnings :
  forall (h : Host) (browser : option string) (output_file : string),
    Forall is_warning
      (prints (trace (extract_linkedin_cookies h browser output_file true))).
Proof.
  intros h browser output_file. apply Forall_prints.
  apply run_trace_Forall; try done.
  intros f _ m [= <-]. exists f. destruct (looks_like_firefox f); tauto.
Qed.

Lemma store_statement_select (h : Host) (f sql : string) :
  store_statement h f sql -> Py.startswith sql "SELECT " = true.
Proof.
  intros [[_ Hs]|[[_ Hs]|[_ Hs]]].
  - simpl in Hs. by destruct Hs as [<-|[<-|[]]].
  - simpl in Hs. by destruct Hs as [<-|[]].
  - destruct (looks_like_firefox f); simpl in Hs;
      by destruct Hs as [<-|[<-|[<-|[]]]].
Qed.

(** X15. Every statement a run sends is a SELECT of the program's own:
    it is sent on a connection asked for with a path one of the locators
    came up with, it is a COUNT of the family that located that path or a
    row query of the family the path points to, and it starts with
    SELECT. *)
Theorem run_only_reads_candidates :
  forall (h : Host) (browser : option string) (output_file : string)
         (quiet : bool),
    Forall
      (fun ev =>
         forall f sql,
           ev = Executed f sql ->
           store_statement h f sql /\ Py.startswith sql "SELECT " = true)
      (trace (extract_linkedin_cookies h browser output_file quiet)).
Proof.
  intros h browser output_file quiet. apply run_trace_Forall; try done.
  intros f sql Hst f' sql' [= <- <-].
  split; [done | by apply (store_statement_select h f)].
Qed.

(** X16. When Firefox is asked for, or when no browser is named and the
    Firefox locator finds any store, the run reads Firefox stores only:
    the selected files are the ranked Firefox candidates, whether or not
    they hold cookies of the site, and no statement goes to a file outside
    of them. *)
Theorem firefox_selected_first :
  forall (h : Host) (browser : option string) (output_file : string)
         (quiet : bool),
    browser_is browser "firefox" = true
    \/ (auto_detect browser /\ firefox_candidates h <> []) ->
    selected h browser = ranking h true (firefox_candidates h)
    /\ Forall
         (fun ev => forall f sql, ev = Executed f sql ->
                                  f ∈ firefox_candidates h)
         (trace (extract_linkedin_cookies h browser output_file quiet)).
Proof.
  intros h browser output_file quiet Hsel.
  destruct (select_firefox_first h browser quiet Hsel) as (t & Hs & Ht).
  split; [by apply (selected_eq _ _ quiet t _ "Firefox")|].
  apply (run_trace_Forall_selected _ _ _ _ _ t _ _ Hs); try done.
  - apply Ht; [done|]. by intros f sql Hf _ f' sql' [= <- <-].
  - intros f Hf%ranking_candidates. split; [done|].
    by intros sql _ f' sql' [= <- <-].
Qed.

Lemma firefox_selected_first_witness :
  selected host_legacy_firefox None
  = ranking host_legacy_firefox true (firefox_candidates host_legacy_firefox).
Proof.
  apply (firefox_selected_first host_legacy_firefox None "out.json" true).
  right. split; [by repeat split | discriminate].
Defined.

(** ** Command line entry *)

Lemma main_shape (h : Host) (browser : option string) (output : string)
    (quiet : bool) :
  main h browser output quiet
  = (trace (extract_linkedin_cookies h browser output quiet),
     Ok (if can_save h (collected h browser) output && Py.truthy_str output
         then 0%Z else 1%Z)).
Proof.
  unfold main. rewrite (eff_eta (bind _ _)), trace_bind, outcome_bind.
  rewrite run_outcome.
  destruct (can_save h (collected h browser) output); [|by rewrite app_nil_r].
  destruct output; simpl; by rewrite app_nil_r.
Qed.

(** X17. The exit status is 0 only after the cookies were dumped: when
    [main] gives 0 the output path is not empty and the deduplicated
    cookies of the selected stores were dumped to it; [main] does nothing
    to the outside beyond what the run does. *)
Theorem exit_status_zero_only_after_dump :
  forall (h : Host) (browser : option string) (output : string)
         (quiet : bool),
    outcome (main h browser output quiet) = Ok 0%Z ->
    output <> EmptyString
    /\ trace (main h browser output quiet)
       = trace (extract_linkedin_cookies h browser output quiet)
    /\ In (Dumped output (remove_duplicates (collected h browser)))
          (trace (main h browser output quiet)).
Proof.
  intros h browser output quiet. rewrite main_shape.
  cbn [trace outcome fst snd].
  destruct (can_save h (collected h browser) output) eqn:Hs; [|discriminate].
  destruct output as [|a output]; [discriminate|]. intros _.
  split; [discriminate|]. split; [done|]. by apply run_dumps.
Qed.

Lemma exit_status_zero_only_after_dump_witness :
  In (Dumped "linkedin_cookies.json"
        (remove_duplicates (collected host_chrome None)))
     (trace (main host_chrome None "linkedin_cookies.json" true)).
Proof.
  pose proof (exit_status_zero_only_after_dump host_chrome None
                "linkedin_cookies.json" true eq_refl) as (_ & _ & H).
  exact H.
Defined.

(** ** The browser argument *)

Lemma lower_ascii_idem (c : ascii) :
  Py.lower_ascii (Py.lower_ascii c) = Py.lower_ascii c.
Proof.
  destruct c as [[] [] [] [] [] [] [] []]; reflexivity.
Qed.

Lemma lower_idem (s : string) : Py.lower (Py.lower s) = Py.lower s.
Proof.
  induction s as [|c t IH]; [done|]. simpl. by rewrite lower_ascii_idem, IH.
Qed.

Lemma browser_is_lower (b w : string) :
  browser_is (Some (Py.lower b)) w = browser_is (Some b) w.
Proof.
  unfold browser_is. rewrite lower_idem. by destruct b.
Qed.

Lemma select_browser_ext (h : Host) (b1 b2 : option string) (quiet : bool) :
  browser_is b1 "firefox" = browser_is b2 "firefox" ->
  browser_is b1 "chrome" = browser_is b2 "chrome" ->
  browser_is b1 "edge" = browser_is b2 "edge" ->
  select_cookie_files h b1 quiet = select_cookie_files h b2 quiet.
Proof. unfold select_cookie_files. by intros -> -> ->. Qed.

(** X18. The browser argument counts only through its lower-case form, and
    an argument that is none of firefox, chrome and edge in that form (the
    empty text among them) is the same as no argument. *)
Theorem browser_argument_by_lowercase :
  forall (h : Host) (b : string) (output_file : string) (quiet : bool),
    extract_linkedin_cookies h (Some b) output_file quiet
    = extract_linkedin_cookies h (Some (Py.lower b)) output_file quiet
    /\ (~ In (Py.lower b) ["firefox"; "chrome"; "edge"] ->
        extract_linkedin_cookies h (Some b) output_file quiet
        = extract_linkedin_cookies h None output_file quiet).
Proof.
  intros h b output_file quiet. unfold extract_linkedin_cookies. split.
  - by rewrite (select_browser_ext h (Some b) (Some (Py.lower b)) quiet)
      by (symmetry; apply browser_is_lower).
  - intros Hnot.
    assert (Hno : forall w, In w ["firefox"; "chrome"; "edge"] ->
                            browser_is (Some b) w = false).
    { intros w Hw. unfold browser_is. apply andb_false_iff. right.
      apply String.eqb_neq. intros Heq. apply Hnot. by rewrite Heq. }
    rewrite (select_browser_ext h (Some b) None quiet); [done|..];
      apply Hno; simpl; tauto.
Qed.

(** ** The consumer of the cookie file *)

Lemma pw_cookie_obj (m : gmap string Json) :
  match m !! "name", m !! "value" with
  | None, _ => Wrapper.pw_cookie (JObj m) = inl (KeyError "name")
  | Some _, None => Wrapper.pw_cookie (JObj m) = inl (KeyError "value")
  | Some n, Some v =>
    exists d,
      Wrapper.pw_cookie (JObj m) = inr d
      /\ d !! "name" = Some n
      /\ d !! "value" = Some v
      /\ d !! "domain" = Some (default (JStr ".linkedin.com") (m !! "domain"))
      /\ d !! "path" = Some (default (JStr "/") (m !! "path"))
      /\ d !! "expires" = keep_truthy (m !! "expiry")
      /\ d !! "secure" = keep_truthy (m !! "secure")
      /\ d !! "httpOnly" = keep_truthy (m !! "httpOnly")
      /\ d !! "expiry" = None
  end.
Proof.
  unfold Wrapper.pw_cookie, Wrapper.getitem, Wrapper.get_default,
    Wrapper.get_truthy, Wrapper.get, keep_truthy.
  destruct (m !! "name") as [n|]; [|done].
  destruct (m !! "value") as [v|]; [|done].
  destruct (m !! "expiry") as [e|]; [destruct (Wrapper.truthy e)|];
    (destruct (m !! "secure") as [sc|]; [destruct (Wrapper.truthy sc)|]);
    (destruct (m !! "httpOnly") as [ho|]; [destruct (Wrapper.truthy ho)|]).
  all: eexists; split; [reflexivity|].
  all: repeat split; by simplify_map_eq.
Qed.

(** X19. What the wrapper makes of a cookie dictionary: without a name or
    a value the conversion raises [KeyError]; otherwise name and value are
    copied, a missing domain becomes ".linkedin.com" and a missing path
    "/", and expiry (under the key expires), secure and httpOnly are copied
    only when present and truthy.  Anything that is not a dictionary raises
    [TypeError]. *)
Theorem wrapper_cookie_contract :
  (forall m : gmap string Json,
      match m !! "name", m !! "value" with
      | None, _ => Wrapper.pw_cookie (JObj m) = inl (KeyError "name")
      | Some _, None => Wrapper.pw_cookie (JObj m) = inl (KeyError "value")
      | Some n, Some v =>
        exists d,
          Wrapper.pw_cookie (JObj m) = inr d
          /\ d !! "name" = Some n
          /\ d !! "value" = Some v
          /\ d !! "domain" = Some (default (JStr ".linkedin.com") (m !! "domain"))
          /\ d !! "path" = Some (default (JStr "/") (m !! "path"))
          /\ d !! "expires" = keep_truthy (m !! "expiry")
          /\ d !! "secure" = keep_truthy (m !! "secure")
          /\ d !! "httpOnly" = keep_truthy (m !! "httpOnly")
          /\ d !! "expiry" = None
      end)
  /\ (forall j, (forall m, j <> JObj m) ->
                Wrapper.pw_cookie j = inl TypeError).
Proof.
  split; [exact pw_cookie_obj|].
  intros j Hj. destruct j; try done. by destruct (Hj members).
Qed.

Lemma pw_cookie_of_cookie (c : Cookie) :
  json_serializable [c] = true ->
  exists j d,
    json_of_cookie c = Some j
    /\ Wrapper.pw_cookie j = inr d
    /\ handed_over c d
    /\ Wrapper.name_is_auth j
       = inr (existsb (String.eqb (name c)) auth_cookie_names).
Proof.
  destruct c as [n val dom pth exp sec htt]. unfold json_serializable.
  simpl. destruct val as [v|bs]; [intros _ | done].
  unfold json_of_cookie, handed_over. simpl.
  set (m := <["httpOnly" := JBool htt]> _).
  assert (Hname : m !! "name" = Some (JStr n)) by (subst m; by simplify_map_eq).
  assert (Hvalue : m !! "value" = Some (JStr v)) by (subst m; by simplify_map_eq).
  assert (Hdom : m !! "domain" = Some (JStr dom)) by (subst m; by simplify_map_eq).
  assert (Hpath : m !! "path" = Some (JStr pth)) by (subst m; by simplify_map_eq).
  assert (Hexp : m !! "expiry" = Some (json_of_expiry exp))
    by (subst m; by simplify_map_eq).
  assert (Hsec : m !! "secure" = Some (JBool sec)) by (subst m; by simplify_map_eq).
  assert (Hhtt : m !! "httpOnly" = Some (JBool htt)) by (subst m; by simplify_map_eq).
  pose proof (pw_cookie_obj m) as Hobj.
  rewrite Hname, Hvalue, Hdom, Hpath, Hexp, Hsec, Hhtt in Hobj.
  destruct Hobj as (d & Hd & H1 & H2 & H3 & H4 & H5 & H6 & H7 & H8).
  exists (JObj m), d. split; [done|]. split; [done|]. split.
  - split; [done|]. split; [by exists v|]. split; [done|]. split; [done|].
    split; [|split; [|split; [|done]]].
    + rewrite H5. by destruct exp as [[|p|p]|].
    + rewrite H6. by destruct sec.
    + rewrite H7. by destruct htt.
  - unfold Wrapper.name_is_auth, Wrapper.get. by rewrite Hname.
Qed.

Lemma json_serializable_cons (c : Cookie) (cs : list Cookie) :
  json_serializable (c :: cs) = true <->
  json_serializable [c] = true /\ json_serializable cs = true.
Proof.
  unfold json_serializable. simpl. rewrite andb_true_r.
  apply andb_true_iff.
Qed.

(** X20. Every list of cookies the extractor can dump is accepted by the
    wrapper: read back from the file, no cookie raises, and the browser
    cookies come out one per cookie and in the same order, each with the
    cookie's name, value, domain and path, with expires only for a
    non-null expiry, and with secure and httpOnly only when they are
    true. *)
Theorem wrapper_accepts_dumped_cookies :
  forall cookies : list Cookie,
    json_serializable cookies = true ->
    exists js ds,
      mapM json_of_cookie cookies = Some js
      /\ Wrapper.playwright_cookies js = inr ds
      /\ Forall2 handed_over cookies ds.
Proof.
  induction cookies as [|c cs IH]; intros Hjs.
  - exists [], []. by repeat split.
  - apply json_serializable_cons in Hjs as [Hc Hcs].
    destruct (IH Hcs) as (js & ds & Hjs & Hds & Hall).
    destruct (pw_cookie_of_cookie c Hc) as (j & d & Hj & Hd & Hover & _).
    exists (j :: js), (d :: ds). split; [|split].
    + apply mapM_Some. constructor; [done | by apply mapM_Some].
    + simpl. by rewrite Hd, Hds.
    + by constructor.
Qed.

Lemma wrapper_accepts_dumped_cookies_witness :
  exists js ds,
    mapM json_of_cookie [firefox_cookie row_lang; firefox_cookie row_bscookie]
    = Some js
    /\ Wrapper.playwright_cookies js = inr ds
    /\ Forall2 handed_over
         [firefox_cookie row_lang; firefox_cookie row_bscookie] ds.
Proof.
  apply (wrapper_accepts_dumped_cookies
           [firefox_cookie row_lang; firefox_cookie row_bscookie]).
  reflexivity.
Defined.

(** X21. The wrapper and the extractor agree on the verdict: on the cookies
    read back from a dumped file the wrapper's check for authentication
    cookies does not raise and answers what the extractor's check
    answered. *)
Theorem wrapper_verdict_agrees :
  forall (cookies : list Cookie) (js : list Json),
    mapM json_of_cookie cookies = Some js ->
    Wrapper.found_auth js = inr (found_auth_cookies cookies).
Proof.
  intros cookies js Hjs%mapM_Some.
  induction Hjs as [|c j cs js Hj _ IH]; [done|].
  assert (Hc : json_serializable [c] = true).
  { unfold json_serializable, json_of_cookie in *. simpl.
    by destruct (value c). }
  destruct (pw_cookie_of_cookie c Hc) as (j' & _ & Hj' & _ & _ & Hn).
  rewrite Hj in Hj'. injection Hj' as <-.
  change (found_auth_cookies (c :: cs))
    with (existsb (String.eqb (name c)) auth_cookie_names
          || found_auth_cookies cs).
  cbn [Wrapper.found_auth]. rewrite Hn.
  destruct (existsb (String.eqb (name c)) auth_cookie_names); [done|].
  exact IH.
Qed.

Lemma wrapper_verdict_agrees_witness :
  Wrapper.found_auth
    (default [] (mapM json_of_cookie
                   [firefox_cookie row_lang; firefox_cookie row_bscookie]))
  = inr true.
Proof.
  apply (wrapper_verdict_agrees
           [firefox_cookie row_lang; firefox_cookie row_bscookie]).
  reflexivity.
Defined.

(** ** Runs over Chrome/Edge stores *)





(** ** The ranking, step by step *)

Lemma rank_loop_trace (h : Host) (is_firefox : bool)
    (files prioritized others : list string) :
  trace (rank_loop h is_firefox files prioritized others)
  = flat_map (fun f => trace (has_linkedin_cookies h f is_firefox)) files.
Proof.
  revert prioritized others.
  induction files as [|f rest IH]; intros prioritized others; [done|].
  cbn [rank_loop flat_map].
  rewrite trace_bind, has_linkedin_cookies_total.
  by destruct (confirmed h is_firefox f); rewrite IH.
Qed.

(** X23. What the ranking does to the outside is the probe of the first
    path, then of the second, and so on, one probe per enumerated path:
    every statement it sends is a COUNT of its family on a connection
    asked for with an enumerated path; it prints nothing and does not
    raise. *)
Theorem ranking_probes_each_once :
  forall (h : Host) (is_firefox : bool) (cookie_files : list string),
    trace (rank h is_firefox cookie_files)
    = flat_map (fun f => trace (has_linkedin_cookies h f is_firefox))
               cookie_files
    /\ Forall (fun ev => exists f sql,
                  ev = Executed f sql /\ f ∈ cookie_files
                  /\ In sql (probes is_firefox))
         (trace (rank h is_firefox cookie_files))
    /\ prints (trace (rank h is_firefox cookie_files)) = []
    /\ returns (rank h is_firefox cookie_files).
Proof.
  intros h is_firefox files.
  assert (Ht : trace (rank h is_firefox files)
               = flat_map (fun f => trace (has_linkedin_cookies h f is_firefox))
                          files).
  { unfold rank. rewrite trace_bind, rank_loop_trace, rank_loop_outcome.
    apply app_nil_r. }
  split; [exact Ht|]. split; [|split].
  - destruct (rank_shape h is_firefox files) as (t & Hr & HP).
    rewrite Hr. cbn [trace fst]. apply HP. intros f sql Hf Hsql.
    by exists f, sql.
  - destruct (rank_shape h is_firefox files) as (t & Hr & HP).
    rewrite Hr. cbn [trace fst].
    assert (Hall : Forall (fun ev => forall m, ev = Printed m -> False) t).
    { apply HP. intros f sql _ _ m. discriminate. }
    apply Forall_prints in Hall. destruct (prints t) as [|m ms]; [done|].
    by apply Forall_cons_1 in Hall as [[] _].
  - unfold returns. rewrite rank_outcome. by eexists.
Qed.
